(** * BizBuySell scraper and Mailchimp notifier: a shallow embedding

    The development follows the Python sources of the repository:
    - [main.py]: the freshness filter of the periodic driver;
    - [listing_detail_scraper.py]: the per-candidate scrape loop, the
      extraction of a record from a rendered page, the enrichment calls and
      the upsert into the document store;
    - [mailchimp_notifier.py]: matching subscribers against listings and
      grouping them by identical match lists.

    Python [str] values are modelled as Rocq strings whose characters are the
    code points 0..255; Python floats are idealised as rationals, since the
    code only compares them.  Library calls whose result the code cannot
    determine ([float], [json.loads], the browser, the classification
    service, the campaign platform) are parameters or oracle records. *)

From Stdlib Require Import ZArith QArith Qcanon Ascii String List Lia Permutation.
From stdpp Require Import base decidable strings list gmap sorting.

Local Open Scope Z_scope.
Local Open Scope stdpp_scope.

(** ** Python string primitives *)

Module Py.

Definition code (c : ascii) : N := N_of_ascii c.

(** [str.isspace] on the code points below 256. *)
Definition isspace (c : ascii) : bool :=
  let n := code c in
  ((9 <=? n) && (n <=? 13) || (28 <=? n) && (n <=? 32)
   || (n =? 133) || (n =? 160))%N.

(** [str.lower] on one code point below 256: A-Z and the Latin-1 capitals
    (except the multiplication sign) move up by 32. *)
Definition lower_char (c : ascii) : ascii :=
  let n := code c in
  if ((65 <=? n) && (n <=? 90)
      || (192 <=? n) && (n <=? 222) && negb (n =? 215))%N
  then ascii_of_N (n + 32) else c.

Fixpoint lower (s : string) : string :=
  match s with
  | EmptyString => EmptyString
  | String c s' => String (lower_char c) (lower s')
  end.

Fixpoint lstrip (s : string) : string :=
  match s with
  | EmptyString => EmptyString
  | String c s' => if isspace c then lstrip s' else s
  end.

Fixpoint rstrip (s : string) : string :=
  match s with
  | EmptyString => EmptyString
  | String c s' =>
      match rstrip s' with
      | EmptyString => if isspace c then EmptyString else String c EmptyString
      | r => String c r
      end
  end.

(** [s.strip()] *)
Definition strip (s : string) : string := rstrip (lstrip s).

(** [s.replace(c, '')] for a one-character [c]. *)
Fixpoint remove_char (c : ascii) (s : string) : string :=
  match s with
  | EmptyString => EmptyString
  | String d s' =>
      if Ascii.eqb c d then remove_char c s' else String d (remove_char c s')
  end.

(** [s.replace(old, '')] for a non-empty [old]: non-overlapping occurrences
    are dropped from left to right; [skip] counts the characters of the
    occurrence being dropped. *)
Fixpoint remove_sub_from (old : string) (skip : nat) (s : string) : string :=
  match s with
  | EmptyString => EmptyString
  | String c s' =>
      match skip with
      | S k => remove_sub_from old k s'
      | O =>
          if String.prefix old s
          then remove_sub_from old (Nat.pred (String.length old)) s'
          else String c (remove_sub_from old O s')
      end
  end.

Definition remove_sub (old s : string) : string :=
  match old with
  | EmptyString => s
  | _ => remove_sub_from old O s
  end.

(** [s.split(c)]: the pieces between the occurrences of [c]; never empty. *)
Fixpoint split_on (c : ascii) (s : string) : list string :=
  match s with
  | EmptyString => [EmptyString]
  | String d s' =>
      if Ascii.eqb c d then EmptyString :: split_on c s'
      else match split_on c s' with
           | [] => [String d EmptyString]
           | p :: ps => String d p :: ps
           end
  end.

(** [sep.join(parts)] *)
Fixpoint join (sep : string) (parts : list string) : string :=
  match parts with
  | [] => EmptyString
  | [p] => p
  | p :: ps => p +:+ sep +:+ join sep ps
  end.

(** [s.startswith(p)] and [s.endswith(p)] *)
Definition startswith (p s : string) : bool := String.prefix p s.

Definition endswith (p s : string) : bool :=
  String.prefix (String.rev p) (String.rev s).

(** [s[n:]] and [s[:-n]] *)
Fixpoint drop_chars (n : nat) (s : string) : string :=
  match n, s with
  | O, _ => s
  | S k, EmptyString => EmptyString
  | S k, String _ s' => drop_chars k s'
  end.

Definition drop_last (n : nat) (s : string) : string :=
  String.rev (drop_chars n (String.rev s)).

(** [s[:n]] *)
Fixpoint take_chars (n : nat) (s : string) : string :=
  match n, s with
  | O, _ => EmptyString
  | S k, EmptyString => EmptyString
  | S k, String c s' => String c (take_chars k s')
  end.

(** Truthiness of a [str]. *)
Definition truthy (s : string) : bool :=
  match s with EmptyString => false | _ => true end.

(** [a or b] on strings. *)
Definition or_else (a b : string) : string := if truthy a then a else b.

(** [s.encode()]: UTF-8 of code points below 256. *)
Fixpoint encode (s : string) : list Z :=
  match s with
  | EmptyString => []
  | String c s' =>
      let n := Z.of_N (code c) in
      if n <? 128 then n :: encode s'
      else Z.lor 192 (Z.shiftr n 6) :: Z.lor 128 (Z.land n 63) :: encode s'
  end.

End Py.

(** ** MD5 ([hashlib.md5]) on 32-bit words held in [Z] *)

Module MD5.

Definition mask32 : Z := 4294967295.

Definition add32 (a b : Z) : Z := Z.land (a + b) mask32.

Definition not32 (a : Z) : Z := Z.lxor a mask32.

Definition rotl32 (x c : Z) : Z :=
  Z.land (Z.lor (Z.shiftl x c) (Z.shiftr x (32 - c))) mask32.

Definition K : list Z :=
  [ 3614090360; 3905402710; 606105819; 3250441966; 4118548399; 1200080426;
    2821735955; 4249261313; 1770035416; 2336552879; 4294925233; 2304563134;
    1804603682; 4254626195; 2792965006; 1236535329; 4129170786; 3225465664;
    643717713; 3921069994; 3593408605; 38016083; 3634488961; 3889429448;
    568446438; 3275163606; 4107603335; 1163531501; 2850285829; 4243563512;
    1735328473; 2368359562; 4294588738; 2272392833; 1839030562; 4259657740;
    2763975236; 1272893353; 4139469664; 3200236656; 681279174; 3936430074;
    3572445317; 76029189; 3654602809; 3873151461; 530742520; 3299628645;
    4096336452; 1126891415; 2878612391; 4237533241; 1700485571; 2399980690;
    4293915773; 2240044497; 1873313359; 4264355552; 2734768916; 1309151649;
    4149444226; 3174756917; 718787259; 3951481745 ].

Definition shifts : list Z :=
  [ 7; 12; 17; 22; 7; 12; 17; 22; 7; 12; 17; 22; 7; 12; 17; 22;
    5; 9; 14; 20; 5; 9; 14; 20; 5; 9; 14; 20; 5; 9; 14; 20;
    4; 11; 16; 23; 4; 11; 16; 23; 4; 11; 16; 23; 4; 11; 16; 23;
    6; 10; 15; 21; 6; 10; 15; 21; 6; 10; 15; 21; 6; 10; 15; 21 ].

Record regs := { rA : Z; rB : Z; rC : Z; rD : Z }.

Definition init : regs :=
  {| rA := 1732584193; rB := 4023233417; rC := 2562383102; rD := 271733878 |}.

Definition round_fg (i : Z) (r : regs) : Z * Z :=
  let '(b, c, d) := (rB r, rC r, rD r) in
  if i <? 16 then (Z.lor (Z.land b c) (Z.land (not32 b) d), i)
  else if i <? 32 then
    (Z.lor (Z.land d b) (Z.land (not32 d) c), (5 * i + 1) mod 16)
  else if i <? 48 then (Z.lxor b (Z.lxor c d), (3 * i + 5) mod 16)
  else (Z.lxor c (Z.lor b (not32 d)), (7 * i) mod 16).

Definition step (M : list Z) (r : regs) (i : nat) : regs :=
  let '(f, g) := round_fg (Z.of_nat i) r in
  let f' := add32 (add32 (add32 f (rA r)) (nth i K 0)) (nth (Z.to_nat g) M 0) in
  {| rA := rD r; rD := rC r; rC := rB r;
     rB := add32 (rB r) (rotl32 f' (nth i shifts 0)) |}.

(** Little-endian word of four bytes, and back. *)
Definition word_of (b0 b1 b2 b3 : Z) : Z :=
  Z.lor b0 (Z.lor (Z.shiftl b1 8) (Z.lor (Z.shiftl b2 16) (Z.shiftl b3 24))).

Definition bytes_of (w : Z) : list Z :=
  [ Z.land w 255; Z.land (Z.shiftr w 8) 255;
    Z.land (Z.shiftr w 16) 255; Z.land (Z.shiftr w 24) 255 ].

Fixpoint words (bs : list Z) : list Z :=
  match bs with
  | b0 :: b1 :: b2 :: b3 :: rest => word_of b0 b1 b2 b3 :: words rest
  | _ => []
  end.

Definition compress (r : regs) (block : list Z) : regs :=
  let M := words block in
  let r' := fold_left (step M) (seq 0 64) r in
  {| rA := add32 (rA r) (rA r'); rB := add32 (rB r) (rB r');
     rC := add32 (rC r) (rC r'); rD := add32 (rD r) (rD r') |}.

(** The message followed by 0x80, zeros up to 56 modulo 64, and the bit
    length on eight little-endian bytes. *)
Definition pad (msg : list Z) : list Z :=
  let n := Z.of_nat (length msg) in
  let zeros := Z.to_nat ((55 - n) mod 64) in
  let bits := 8 * n in
  msg ++ [128] ++ repeat 0 zeros
      ++ bytes_of (Z.land bits mask32)
      ++ bytes_of (Z.land (Z.shiftr bits 32) mask32).

Fixpoint blocks (fuel : nat) (bs : list Z) : list (list Z) :=
  match fuel, bs with
  | S k, _ :: _ => firstn 64 bs :: blocks k (skipn 64 bs)
  | _, _ => []
  end.

Definition digest (msg : list Z) : list Z :=
  let p := pad msg in
  let r := fold_left compress (blocks (length p) p) init in
  bytes_of (rA r) ++ bytes_of (rB r) ++ bytes_of (rC r) ++ bytes_of (rD r).

Definition hex_digit (n : Z) : ascii :=
  if n <? 10 then ascii_of_N (Z.to_N (48 + n)) else ascii_of_N (Z.to_N (87 + n)).

Fixpoint hex (bs : list Z) : string :=
  match bs with
  | [] => EmptyString
  | b :: rest =>
      String (hex_digit (Z.shiftr b 4)) (String (hex_digit (Z.land b 15)) (hex rest))
  end.

(** [hashlib.md5(msg).hexdigest()] *)
Definition hexdigest (msg : list Z) : string := hex (digest msg).

End MD5.

Example md5_empty : MD5.hexdigest (Py.encode "") = "d41d8cd98f00b204e9800998ecf8427e".
Proof. vm_compute. reflexivity. Qed.

Example md5_abc : MD5.hexdigest (Py.encode "abc") = "900150983cd24fb0d6963f7d28e17f72".
Proof. vm_compute. reflexivity. Qed.

(** ** Data model *)

(** A scalar as the JSON of the site, of the campaign platform and of the
    document store carries it: a number or a text. *)
Inductive pyval :=
  | VNum (q : Qc)
  | VStr (s : string).

Global Instance pyval_eq_dec : EqDecision pyval.
Proof. solve_decision. Defined.

(** Truthiness of a scalar: [0] and [''] are falsy. *)
Definition pyval_truthy (v : pyval) : bool :=
  match v with
  | VNum q => negb (bool_decide (q = 0%Qc))
  | VStr s => Py.truthy s
  end.

(** The candidate reference produced by URL discovery ([url_data]); a field
    is [None] when the key is missing from the dict. *)
Module Candidate.
Record t := {
  title : option string;
  url : option string;
  listing_id : option string
}.
End Candidate.

(** The record built by [_extract_detail_data], which is also the document
    held by the store and the listing read by the notifier. *)
Record listing := {
  title : string;
  city : option string;    (* [None]: a value that is not a text *)
  state : option string;   (* [None]: a value that is not a text *)
  asking_price : option pyval;
  gross_revenue : string;
  established : option string;
  cashflow : string;
  description : string;
  url : string;
  category : list string;
  original_category : string;
  listing_id : string;
  broker_name : string;
  broker_profile : string;
  broker_number : string;
  scraped_date : string
}.

Global Instance listing_eq_dec : EqDecision listing.
Proof. solve_decision. Defined.

(** A member of the audience list: [sub.get('email_address')] and
    [sub.get('merge_fields')]. *)
Record subscriber := {
  email_address : option string;
  merge_fields : option (gmap string pyval)
}.

(** An insertion-ordered [dict] with string keys. *)
Module Dict.
Section dict.
Context {V : Type}.

Fixpoint get (k : string) (d : list (string * V)) : option V :=
  match d with
  | [] => None
  | (k', v) :: r => if String.eqb k k' then Some v else get k r
  end.

(** [d[k] = v]: an existing key keeps its position. *)
Fixpoint set (k : string) (v : V) (d : list (string * V)) : list (string * V) :=
  match d with
  | [] => [(k, v)]
  | (k', v') :: r =>
      if String.eqb k k' then (k, v) :: r else (k', v') :: set k v r
  end.

Definition keys (d : list (string * V)) : list string := fst <$> d.
End dict.
End Dict.

(** ** Exceptions

    A Python call either returns a value or raises; [Raise] carries the class
    of the exception, which decides the [except] clause that catches it. *)

Inductive pyexn :=
  | TypeError
  | AttributeError
  | RuntimeError
  | JSONDecodeError
  | TimeoutException
  | WebDriverException
  | OtherException.

Inductive exc (A : Type) :=
  | Ret (a : A)
  | Raise (e : pyexn).
Arguments Ret {A} a.
Arguments Raise {A} e.

Global Instance exc_ret : MRet exc := @Ret.
Global Instance exc_bind : MBind exc := λ A B f m,
  match m with
  | Ret a => f a
  | Raise e => Raise e
  end.

(** ** The notifier ([mailchimp_notifier.py]) *)

(** [set(s)] of a string: its characters, each as a one-character string. *)
Fixpoint chars (s : string) : list string :=
  match s with
  | EmptyString => []
  | String c r => String c EmptyString :: chars r
  end.

(** Truthiness of a [set]. *)
Definition set_truthy (X : gset string) : bool := bool_decide (X ≠ ∅).

(** [a < b] and [a > b] for a float [a]: a text on the right raises. *)
Definition float_lt (a : Qc) (b : pyval) : exc bool :=
  match b with
  | VNum m => Ret (bool_decide (a < m)%Qc)
  | VStr _ => Raise TypeError
  end.

(** [set(field.lower())]: the lowered characters of a text; a value that is
    not a text has no [lower]. *)
Definition lowered_chars (field : option string) : exc (gset string) :=
  match field with
  | Some s => Ret (list_to_set (chars (Py.lower s)))
  | None => Raise AttributeError
  end.

Definition float_gt (a : Qc) (b : pyval) : exc bool :=
  match b with
  | VNum m => Ret (bool_decide (m < a)%Qc)
  | VStr _ => Raise TypeError
  end.

(** The groups built by [group_subscribers_by_matches]: for each hash the
    e-mails of the group and the listings of its first subscriber. *)
Definition groups_t : Type := list (string * (list string * list listing)).

(** [_create_listings_hash]: the first eight hexadecimal digits of the MD5
    of the sorted identifiers joined by a bar. *)
Definition listing_ident (l : listing) : string := Py.or_else (url l) (title l).

Definition _create_listings_hash (listings : list listing) : string :=
  let listing_ids := merge_sort String.le (listing_ident <$> listings) in
  let content := Py.join "|" listing_ids in
  Py.take_chars 8 (MD5.hexdigest (Py.encode content)).

(** One iteration of the loop of [group_subscribers_by_matches]. *)
Definition group_add (groups : groups_t) (entry : string * list listing) : groups_t :=
  let '(email, matched_listings) := entry in
  let listings_hash := _create_listings_hash matched_listings in
  match Dict.get listings_hash groups with
  | None => groups ++ [(listings_hash, ([email], matched_listings))]
  | Some (emails, ls) => Dict.set listings_hash (emails ++ [email], ls) groups
  end.

Definition group_subscribers_by_matches
    (matches : list (string * list listing)) : groups_t :=
  fold_left group_add matches [].

Section Notifier.

(** [float(s)], with [None] for a [ValueError]. *)
Variable py_float : string → option Qc.

(** [str(x)] of a number. *)
Variable py_str : Qc → string.

Definition str (v : pyval) : string :=
  match v with
  | VNum q => py_str q
  | VStr s => s
  end.

(** [_normalize_price]: the text of the value loses its commas and dollar
    signs and is parsed; [None] for a missing value and when [float]
    raises. *)
Definition _normalize_price (value : option pyval) : option Qc :=
  match value with
  | None => None
  | Some v =>
      py_float (Py.strip (Py.remove_char "$" (Py.remove_char "," (str v))))
  end.

(** [_normalize_list_field] *)
Definition _normalize_list_field (field_value : option pyval) : list string :=
  match field_value with
  | None => []
  | Some v =>
      if pyval_truthy v then
        Py.strip <$>
          List.filter (λ item, Py.truthy item && Py.truthy (Py.strip item))
            (Py.split_on "," (Py.remove_char (ascii_of_N 160) (str v)))
      else []
  end.

(** [_listing_matches_subscriber] *)
Definition _listing_matches_subscriber (l : listing)
    (min_price max_price : option pyval)
    (subscriber_industries subscriber_states subscriber_cities : gset string)
    : exc bool :=
  let price := _normalize_price (asking_price l) in
  below ← match min_price, price with
          | Some m, Some p => float_lt p m
          | _, _ => Ret false
          end;
  if below : bool then Ret false else
  above ← match max_price, price with
          | Some m, Some p => float_gt p m
          | _, _ => Ret false
          end;
  if above : bool then Ret false else
  let listing_industries : gset string :=
    list_to_set ((λ cat, Py.strip (Py.lower cat)) <$> List.filter Py.truthy (category l)) in
  if set_truthy subscriber_industries
     && negb (set_truthy (subscriber_industries ∩ listing_industries))
  then Ret false else
  states_ok ← (if set_truthy subscriber_states then
                 listing_state ← lowered_chars (state l);
                 Ret (set_truthy (subscriber_states ∩ listing_state))
               else Ret true);
  if negb states_ok then Ret false else
  cities_ok ← (if set_truthy subscriber_cities then
                 listing_city ← lowered_chars (city l);
                 Ret (set_truthy (subscriber_cities ∩ listing_city))
               else Ret true);
  if negb cities_ok then Ret false else
  Ret true.

(** The preferences read from the merge fields of one subscriber. *)
Record preferences := {
  min_price : option pyval;
  max_price : option pyval;
  subscriber_industries : gset string;
  subscriber_states : gset string;
  subscriber_cities : gset string
}.

Definition lowered_set (field_value : option pyval) : gset string :=
  list_to_set (Py.lower <$> _normalize_list_field field_value).

Definition preferences_of (mf : gmap string pyval) : preferences :=
  {| min_price := mf !! "DPR_MIN";
     max_price := mf !! "DPR_MAX";
     subscriber_industries := lowered_set (mf !! "INDUSTRIES");
     subscriber_states := lowered_set (mf !! "STATES");
     subscriber_cities := lowered_set (mf !! "CITIES") |}.

Definition matches_preferences (p : preferences) (l : listing) : exc bool :=
  _listing_matches_subscriber l (min_price p) (max_price p)
    (subscriber_industries p) (subscriber_states p) (subscriber_cities p).

(** The inner loop of [match_subscribers_to_listings]. *)
Fixpoint matched_listings (p : preferences) (listings : list listing)
    : exc (list listing) :=
  match listings with
  | [] => Ret []
  | l :: rest =>
      b ← matches_preferences p l;
      tail ← matched_listings p rest;
      Ret (if b : bool then l :: tail else tail)
  end.

(** One iteration of the outer loop of [match_subscribers_to_listings]. *)
Definition match_subscriber (listings : list listing)
    (matches : list (string * list listing)) (sub : subscriber)
    : exc (list (string * list listing)) :=
  match email_address sub with
  | None => Ret matches
  | Some email =>
      if negb (Py.truthy email) then Ret matches else
      let mf := default ∅ (merge_fields sub) in
      if bool_decide (mf = ∅) then Ret matches else
      found ← matched_listings (preferences_of mf) listings;
      match found with
      | [] => Ret matches
      | _ => Ret (Dict.set email found matches)
      end
  end.

Fixpoint match_loop (listings : list listing) (subs : list subscriber)
    (matches : list (string * list listing))
    : exc (list (string * list listing)) :=
  match subs with
  | [] => Ret matches
  | sub :: rest =>
      matches' ← match_subscriber listings matches sub;
      match_loop listings rest matches'
  end.

Definition match_subscribers_to_listings (subs : list subscriber)
    (listings : list listing) : exc (list (string * list listing)) :=
  match_loop listings subs [].

(** The campaign platform as [notify] uses it, for a client whose calls
    return or raise [ApiClientError]: [_create_segment_for_group] gives the
    identifier of the new segment, or [None] after an [ApiClientError];
    [_send_campaign_to_segment] tells whether the campaign went out. *)
Variable create_segment : list string → string → option Z.
Variable send_campaign : Z → list listing → list string → bool.

Record summary := {
  matched_subscribers : nat;
  emails_sent : nat;
  groups_created : nat
}.

(** A campaign that was sent: its segment, recipients and listings. *)
Record campaign := {
  segment_id : Z;
  recipients : list string;
  content : list listing
}.

(** The loop of [notify] over the groups, with the campaigns sent so far. *)
Fixpoint dispatch (groups : groups_t) (sent : nat) (processed : nat)
    (log : list campaign) : nat * nat * list campaign :=
  match groups with
  | [] => (sent, processed, log)
  | (listings_hash, (group_emails, group_listings)) :: rest =>
      match create_segment group_emails listings_hash with
      | None => dispatch rest sent processed log
      | Some sid =>
          if sid =? 0 then dispatch rest sent processed log
          else if send_campaign sid group_listings group_emails
          then dispatch rest (sent + length group_emails)%nat (S processed)
                 (log ++ [{| segment_id := sid; recipients := group_emails;
                             content := group_listings |}])
          else dispatch rest sent processed log
      end
  end.

(** The notifier once it is built: [self.api_key] and [self.list_id]. *)
Record notifier := {
  api_key : option string;
  self_list_id : option string
}.

(** What [get_list_members_info] answers to [fetch_subscribers]: a
    response with its members (none when the response has no such entry),
    an [ApiClientError], or another exception. *)
Inductive fetch_reply :=
  | Members (subs : list subscriber)
  | ApiClientError
  | FetchRaises.

(** [fetch_subscribers]: an [ApiClientError] is caught and gives no member;
    any other exception is left to the caller. *)
Definition fetch_subscribers (reply : fetch_reply) : exc (list subscriber) :=
  match reply with
  | Members subs => Ret subs
  | ApiClientError => Ret []
  | FetchRaises => Raise OtherException
  end.

(** Truthiness of a text that may be [None]. *)
Definition truthy_text (s : option string) : bool :=
  match s with
  | Some s => Py.truthy s
  | None => false
  end.

(** [notify] from the matching on: matching, grouping, one campaign per
    group and the summary. *)
Definition notify_fetched (subs : list subscriber)
    (filtered_listing_details : list listing) : exc (summary * list campaign) :=
  matches ← match_subscribers_to_listings subs filtered_listing_details;
  match matches with
  | [] => Ret ({| matched_subscribers := 0; emails_sent := 0;
                  groups_created := 0 |}, [])
  | _ =>
      let groups := group_subscribers_by_matches matches in
      let '(sent, processed, log) := dispatch groups 0 0 [] in
      Ret ({| matched_subscribers := length matches; emails_sent := sent;
              groups_created := processed |}, log)
  end.

(** The head of [notify]: the guard on the key, the guard on the list, and
    the fetch of the subscribers. *)
Definition notify_guards (self : notifier) (fetch : fetch_reply)
    (list_id : option string) : exc (list subscriber) :=
  if negb (truthy_text (api_key self)) then Raise RuntimeError else
  let list_id := if truthy_text list_id then list_id else self_list_id self in
  if negb (truthy_text list_id) then Raise RuntimeError else
  fetch_subscribers fetch.

(** [notify] *)
Definition notify (self : notifier) (fetch : fetch_reply)
    (filtered_listing_details : list listing) (list_id : option string)
    : exc (summary * list campaign) :=
  subs ← notify_guards self fetch list_id;
  notify_fetched subs filtered_listing_details.

End Notifier.

(** ** The freshness filter ([main.py], step 1.5) *)

(** The queries the driver sends to the collection. *)
Inductive query :=
  | FindUrlIn (url_list : list string)
  | FindScrapedSince (cutoff : string).

(** [col.find(q)]: the documents of the collection that satisfy [q]. *)
Definition find (col : list listing) (q : query) : list listing :=
  match q with
  | FindUrlIn url_list => List.filter (λ d, bool_decide (url d ∈ url_list)) col
  | FindScrapedSince cutoff =>
      List.filter (λ d, bool_decide (String.le cutoff (scraped_date d))) col
  end.

(** [u.get('url')] when it is truthy. *)
Definition truthy_url (u : Candidate.t) : option string :=
  match Candidate.url u with
  | Some s => if Py.truthy s then Some s else None
  | None => None
  end.

(** The three lines that compute [filtered_urls]; the second component is
    the list of queries sent to the store. *)
Definition freshness_filter (col : list listing) (listing_urls : list Candidate.t)
    : list Candidate.t * list query :=
  let url_list := omap truthy_url listing_urls in
  let q := FindUrlIn url_list in
  let existing : gset string := list_to_set (url <$> find col q) in
  let filtered_urls :=
    List.filter
      (λ u, match Candidate.url u with
            | Some s => bool_decide (s ∉ existing)
            | None => true
            end) listing_urls in
  (filtered_urls, [q]).

(** ** The rendered page *)

(** The JSON-LD scripts of a page, read through the schema the code relies
    on: texts for [name], [description], [category] and [productId]. *)
Module LD.
Record broker := {
  name : string;   (* broker.get('name', '') *)
  url : string     (* broker.get('url', '') *)
}.
Record offers := {
  offeredBy : option broker;   (* [None]: missing or empty *)
  price : option pyval
}.
Record product := {
  p_name : string;
  p_description : string;
  p_offers : option offers;    (* [None]: missing or empty *)
  p_category : string;
  p_productId : string
}.
Inductive script :=
  | Invalid                  (* [json.loads] or the read of [@type] raises *)
  | Other                    (* an object whose [@type] is not [Product] *)
  | Raising (name description : string)
      (* a [Product] whose read raises (offers or a broker that is no
         object, a broker name that is no text): its name and description
         are stored by then, nothing else is *)
  | Product (p : product).   (* a [Product] whose read completes *)
End LD.

(** What the selectors of the code find in the parsed document; the texts
    are those of [get_text(strip=True)]. *)
Record soup := {
  ld_scripts : list LD.script;   (* script[type=application/ld+json] *)
  broker_card : option string;   (* .broker-card > div *)
  span_f_l : list string;        (* span.f-l *)
  ctc_phone : list string;       (* span.ctc_phone a span *)
  help_g4 : list string          (* p.help span.g4 *)
}.

(** The dict filled by [_extract_json_ld_data]. *)
Module JsonData.
Record t := {
  title : option string;
  description : option string;
  broker_name : option string;
  broker_profile : option string;
  asking_price : option pyval;
  category : option string;
  listing_id : option string
}.
Definition empty : t :=
  {| title := None; description := None; broker_name := None;
     broker_profile := None; asking_price := None; category := None;
     listing_id := None |}.
End JsonData.

(** The body of the loop of [_extract_json_ld_data] for a [Product]. *)
Definition fill_product (page : soup) (p : LD.product) (jd : JsonData.t) : JsonData.t :=
  let '(bn, bp) :=
    match LD.p_offers p with
    | Some o =>
        match LD.offeredBy o with
        | Some b =>
            let broker_name :=
              if Py.truthy (LD.name b) then LD.name b
              else default (LD.name b) (broker_card page) in
            (Some (Py.remove_sub "Business Listed By:" broker_name), Some (LD.url b))
        | None => (JsonData.broker_name jd, JsonData.broker_profile jd)
        end
    | None => (JsonData.broker_name jd, JsonData.broker_profile jd)
    end in
  let price :=
    match LD.p_offers p with
    | Some o =>
        match LD.price o with
        | Some v => if pyval_truthy v then Some v else JsonData.asking_price jd
        | None => JsonData.asking_price jd
        end
    | None => JsonData.asking_price jd
    end in
  {| JsonData.title := Some (LD.p_name p);
     JsonData.description := Some (LD.p_description p);
     JsonData.broker_name := bn;
     JsonData.broker_profile := bp;
     JsonData.asking_price := price;
     JsonData.category :=
       if Py.truthy (LD.p_category p) then Some (LD.p_category p)
       else JsonData.category jd;
     JsonData.listing_id :=
       if Py.truthy (LD.p_productId p) then Some (LD.p_productId p)
       else JsonData.listing_id jd |}.

(** What a [Product] whose read raises leaves in the dict: the two entries
    stored before the offers are read. *)
Definition fill_name_and_description (name description : string) (jd : JsonData.t)
    : JsonData.t :=
  {| JsonData.title := Some name;
     JsonData.description := Some description;
     JsonData.broker_name := JsonData.broker_name jd;
     JsonData.broker_profile := JsonData.broker_profile jd;
     JsonData.asking_price := JsonData.asking_price jd;
     JsonData.category := JsonData.category jd;
     JsonData.listing_id := JsonData.listing_id jd |}.

(** [_extract_json_ld_data]: the first [Product] script that is read to its
    end fills the dict and ends the loop; a script that raises is passed
    over with what it has stored by then, and the loop goes on. *)
Fixpoint scan_scripts (page : soup) (scripts : list LD.script) (jd : JsonData.t)
    : JsonData.t :=
  match scripts with
  | [] => jd
  | LD.Product p :: _ => fill_product page p jd
  | LD.Raising name description :: rest =>
      scan_scripts page rest (fill_name_and_description name description jd)
  | _ :: rest => scan_scripts page rest jd
  end.

Definition _extract_json_ld_data (page : soup) : JsonData.t :=
  scan_scripts page (ld_scripts page) JsonData.empty.

(** [_extract_location], [_extract_broker_number], [_extract_gross_revenue]
    and [_extract_cashflow] *)
Definition _extract_location (page : soup) : string :=
  default "" (head (span_f_l page)).

Definition _extract_broker_number (page : soup) : string :=
  default "" (head (ctc_phone page)).

Definition _extract_gross_revenue (page : soup) : string :=
  default "" (help_g4 page !! 2%nat).

Definition _extract_cashflow (page : soup) : string :=
  default "" (help_g4 page !! 1%nat).

(** ** The enrichment client *)

(** A parsed JSON value. *)
#[local] Set Warnings "-register-all".
Inductive json :=
  | JNull
  | JBool (b : bool)
  | JNum (q : Qc)
  | JStr (s : string)
  | JArr (items : list json)
  | JObj (fields : list (string * json)).

(** One call of the classification service: the call (or the read of its
    content) raises, or it gives a text. *)
Inductive ai_reply :=
  | AiRaises
  | AiContent (text : string).

(** [self.categories], the controlled vocabulary. *)
Definition categories : list string :=
  [ "Agriculture"; "Automotive"; "Boat"; "Beauty"; "Personal Care";
    "Building"; "Construction"; "Communication"; "Media"; "Education";
    "Children"; "Entertainment"; "Recreation"; "Financial Services";
    "Health Care"; "Fitness"; "Manufacturing"; "Non-classifiable Establishments";
    "Online"; "Technology"; "Pet Services"; "Restaurants"; "Food";
    "Retail"; "Service Businesses"; "Real Estate" ].

(** [[category] if category else []] *)
Definition raw_category (category : string) : list string :=
  if Py.truthy category then [category] else [].

(** The values a [for] loop draws from a JSON value: the items of an array,
    the characters of a text, the keys of an object; nothing else iterates. *)
Definition iterate (j : json) : exc (list json) :=
  match j with
  | JArr items => Ret items
  | JStr s => Ret (JStr <$> chars s)
  | JObj fields => Ret (JStr <$> Dict.keys fields)
  | JNull | JBool _ | JNum _ => Raise TypeError
  end.

(** [cat in self.categories] keeps the texts of the vocabulary. *)
Definition in_vocabulary (cat : json) : option string :=
  match cat with
  | JStr s => if bool_decide (s ∈ categories) then Some s else None
  | _ => None
  end.

(** [d.get(key, '')] read as a text: [None] stands for a value that is not
    a text. *)
Definition text_field (key : string) (fields : list (string * json)) : option string :=
  match Dict.get key fields with
  | None => Some EmptyString
  | Some (JStr s) => Some s
  | Some _ => None
  end.

Section Enrichment.

(** [json.loads], with [None] for a [JSONDecodeError]. *)
Variable json_loads : string → option json.

(** [categorize_listing] *)
Definition categorize_listing (category : string) (reply : ai_reply) : list string :=
  match reply with
  | AiRaises => raw_category category
  | AiContent text =>
      let response_text := Py.strip text in
      let response_text :=
        if Py.startswith "```json" response_text
        then Py.drop_chars 7 response_text else response_text in
      let response_text :=
        if Py.endswith "```" response_text
        then Py.drop_last 3 response_text else response_text in
      match json_loads response_text with
      | None => raw_category category
      | Some (JObj fields) =>
          match iterate (default (JArr []) (Dict.get "category" fields)) with
          | Ret cats =>
              match omap in_vocabulary cats with
              | [] => raw_category category
              | valid_categories => valid_categories
              end
          | Raise _ => raw_category category
          end
      | Some _ => raw_category category
      end
  end.

(** [ai_extract_city_and_state]: the outer [None] is the [None] the
    function returns when it falls off its end, after the
    [JSONDecodeError] handler has only logged. *)
Definition ai_extract_city_and_state (location : string) (reply : ai_reply)
    : option json :=
  match reply with
  | AiRaises => Some (JObj [])
  | AiContent text =>
      match json_loads (Py.strip text) with
      | Some result => Some result
      | None => None
      end
  end.

(** [location.get(key, '')] on the value returned by
    [ai_extract_city_and_state]: only a dict has [get]. *)
Definition location_get (location : option json) (key : string) : exc (option string) :=
  match location with
  | Some (JObj fields) => Ret (text_field key fields)
  | _ => Raise AttributeError
  end.

(** The [try] block of [_extract_detail_data]. *)
Definition extract_body (cat_reply loc_reply : ai_reply) (now : string)
    (page : soup) (url_data : Candidate.t) : exc (option listing) :=
  let json_data := _extract_json_ld_data page in
  let location := _extract_location page in
  let broker_number := _extract_broker_number page in
  let gross_revenue := _extract_gross_revenue page in
  let cashflow := _extract_cashflow page in
  if match JsonData.asking_price json_data with
     | Some v => pyval_truthy v
     | None => false
     end && Py.truthy location
  then
    let original_category := default "" (JsonData.category json_data) in
    let title :=
      default (default "" (Candidate.title url_data)) (JsonData.title json_data) in
    let description := default "" (JsonData.description json_data) in
    let ai_categories := categorize_listing original_category cat_reply in
    let location := ai_extract_city_and_state location loc_reply in
    city ← location_get location "city";
    state ← location_get location "state";
    Ret (Some {|
      title := title;
      city := city;
      state := state;
      asking_price := JsonData.asking_price json_data;
      gross_revenue := gross_revenue;
      established := None;
      cashflow := cashflow;
      description := description;
      url := default "" (Candidate.url url_data);
      category := ai_categories;
      original_category := original_category;
      listing_id :=
        default (default "" (Candidate.listing_id url_data))
          (JsonData.listing_id json_data);
      broker_name := default "" (JsonData.broker_name json_data);
      broker_profile := default "" (JsonData.broker_profile json_data);
      broker_number := broker_number;
      scraped_date := now
    |})
  else Ret None.

(** [_extract_detail_data]: any exception of the body is logged and gives
    [None]. *)
Definition _extract_detail_data (cat_reply loc_reply : ai_reply) (now : string)
    (page : soup) (url_data : Candidate.t) : option listing :=
  match extract_body cat_reply loc_reply now page url_data with
  | Ret detail_data => detail_data
  | Raise _ => None
  end.

End Enrichment.

(** ** The document store *)

(** The filter of one [UpdateOne]: [listing_id] when it is truthy, else
    [url]. *)
Inductive key :=
  | ByListingId (id : string)
  | ByUrl (u : string).

Definition key_of (d : listing) : key :=
  if Py.truthy (listing_id d) then ByListingId (listing_id d) else ByUrl (url d).

Definition matches_key (k : key) (doc : listing) : bool :=
  match k with
  | ByListingId id => String.eqb (listing_id doc) id
  | ByUrl u => String.eqb (url doc) u
  end.

(** What one operation did. *)
Inductive write_kind :=
  | Upserted     (* no document matched: one was inserted *)
  | Modified     (* the first match was changed *)
  | Unchanged.   (* the first match already held these values *)

(** [UpdateOne(k, {'$set': d}, upsert=True)]: the first document that
    matches takes every field of [d]; without a match, [d] is inserted. *)
Fixpoint update_one (k : key) (d : listing) (col : list listing)
    : list listing * write_kind :=
  match col with
  | [] => ([d], Upserted)
  | doc :: rest =>
      if matches_key k doc
      then (d :: rest, if bool_decide (doc = d) then Unchanged else Modified)
      else let '(rest', w) := update_one k d rest in (doc :: rest', w)
  end.

Record bulk_result := {
  upserted_ids : nat;     (* len(result.upserted_ids) *)
  modified_count : nat
}.

Definition tally (r : bulk_result) (w : write_kind) : bulk_result :=
  match w with
  | Upserted => {| upserted_ids := S (upserted_ids r); modified_count := modified_count r |}
  | Modified => {| upserted_ids := upserted_ids r; modified_count := S (modified_count r) |}
  | Unchanged => r
  end.

(** [bulk_write(ops, ordered=False)], the operations taken in their order. *)
Fixpoint bulk_write (ops : list (key * listing)) (col : list listing)
    (r : bulk_result) : list listing * bulk_result :=
  match ops with
  | [] => (col, r)
  | (k, d) :: rest =>
      let '(col', w) := update_one k d col in
      bulk_write rest col' (tally r w)
  end.

(** ** The scraper ([listing_detail_scraper.py]) *)

(** What the scraper does to the outside, in order. *)
Inductive event :=
  | Navigate (u : string)           (* self.driver.get(u) *)
  | Reset                           (* self.reset_driver() *)
  | BulkWrite (ops : nat).          (* one bulk_write of that many operations *)

(** The fields of the scraper object that its methods read and write; a
    live driver is known by its number. *)
Record scraper := {
  driver : option nat;
  recent_scrapped_listings_urls : gset string;
  mongo_col : list listing;
  log : list event
}.

Definition record (e : event) (st : scraper) : scraper :=
  {| driver := driver st;
     recent_scrapped_listings_urls := recent_scrapped_listings_urls st;
     mongo_col := mongo_col st;
     log := log st ++ [e] |}.

Definition with_driver (d : option nat) (st : scraper) : scraper :=
  {| driver := d;
     recent_scrapped_listings_urls := recent_scrapped_listings_urls st;
     mongo_col := mongo_col st;
     log := log st |}.

(** How [reset_driver] ends: closing the old driver raises and the bare
    [except] leaves it in place, or [_create_driver] gives its result, which
    is [None] when the browser could not start. *)
Inductive reset_result :=
  | CloseRaises
  | Created (d : option nat).

(** What one pass of the loop observes of the outside. *)
Record attempt := {
  get : exc unit;                      (* self.driver.get(url) *)
  access_denied_txt : option string;   (* get_element_text(.. 'access denied' ..) *)
  page_source : exc soup;              (* self.driver.page_source, parsed *)
  cat_reply : ai_reply;                (* the reply to categorize_listing *)
  loc_reply : ai_reply;                (* the reply to ai_extract_city_and_state *)
  now : string;                        (* datetime.now(), formatted *)
  bid_post : bool;                     (* get_element(.. 'starting bid' ..) is non-empty *)
  reset : reset_result
}.

(** [reset_driver] *)
Definition reset_driver (a : attempt) (st : scraper) : scraper :=
  let st := record Reset st in
  match driver st, reset a with
  | Some _, Created d => with_driver d st
  | _, _ => st
  end.

(** How one pass of the [while] loop ends. *)
Inductive flow :=
  | Return (r : option listing)
  | Continue.

Definition max_trials : nat := 2.

Section Scraper.

Variable json_loads : string → option json.

(** The three [except] clauses of the loop: each resets the driver, and
    the loop goes on. *)
Definition on_exception (e : pyexn) (a : attempt) (st : scraper) : flow * scraper :=
  match e with
  | TimeoutException => (Continue, reset_driver a st)
  | WebDriverException => (Continue, reset_driver a st)
  | _ => (Continue, reset_driver a st)
  end.

(** One pass of the [while] loop of [_scrape_listing_detail_selenium]. *)
Definition attempt_once (a : attempt) (u : string) (url_data : Candidate.t)
    (st : scraper) : flow * scraper :=
  match driver st with
  | None => (Return None, st)
  | Some _ =>
      let st := record (Navigate u) st in
      match get a with
      | Raise e => on_exception e a st
      | Ret _ =>
          if match access_denied_txt a with
             | Some txt => Py.truthy txt
             | None => false
             end
          then (Continue, reset_driver a st)
          else
            match page_source a with
            | Raise e => on_exception e a st
            | Ret page =>
                match _extract_detail_data json_loads (cat_reply a) (loc_reply a)
                        (now a) page url_data with
                | Some detail_data => (Return (Some detail_data), st)
                | None =>
                    if bid_post a then (Return None, st)
                    else (Continue, reset_driver a st)
                end
            end
      end
  end.

(** The [while trials <= max_trials] loop; [trials] goes up by one in the
    [finally] clause, so the passes are those of the list of trial
    numbers. *)
Fixpoint scrape_trials (env : nat → attempt) (u : string) (url_data : Candidate.t)
    (trials : list nat) (st : scraper) : option listing * scraper :=
  match trials with
  | [] => (None, st)
  | t :: rest =>
      match attempt_once (env t) u url_data st with
      | (Return r, st') => (r, st')
      | (Continue, st') => scrape_trials env u url_data rest st'
      end
  end.

(** [_scrape_listing_detail_selenium] *)
Definition _scrape_listing_detail_selenium (env : nat → attempt)
    (url_data : Candidate.t) (st : scraper) : option listing * scraper :=
  let u := default "" (Candidate.url url_data) in
  if negb (Py.truthy u) then (None, st)
  else if bool_decide (u ∈ recent_scrapped_listings_urls st) then (None, st)
  else scrape_trials env u url_data (seq 1 max_trials) st.

End Scraper.

(** How the store answers [bulk_write(ops, ordered=False)]: the call
    completes, or it raises.  The write is unordered, so the operations
    that the store accepts go through whatever happens to the others:
    [applied] marks, operation by operation, those that have gone through
    when the call raises. *)
Inductive write_reply :=
  | WriteCompletes
  | WriteRaises (applied : list bool).

Fixpoint applied_ops {A : Type} (applied : list bool) (ops : list A) : list A :=
  match applied, ops with
  | b :: applied, op :: ops =>
      if b : bool then op :: applied_ops applied ops else applied_ops applied ops
  | _, _ => []
  end.

(** [_save_details_to_mongo]: one operation per record, one [bulk_write];
    when the call raises, the [except] clause returns a count of zero,
    whatever the store has applied by then. *)
Definition _save_details_to_mongo (write : write_reply) (details : list listing)
    (st : scraper) : nat * scraper :=
  match details with
  | [] => (O, st)
  | _ =>
      let ops := (λ d, (key_of d, d)) <$> details in
      let st := record (BulkWrite (length ops)) st in
      match write with
      | WriteRaises applied =>
          let '(col, _) :=
            bulk_write (applied_ops applied ops) (mongo_col st)
              {| upserted_ids := 0; modified_count := 0 |} in
          (O,
           {| driver := driver st;
              recent_scrapped_listings_urls := recent_scrapped_listings_urls st;
              mongo_col := col;
              log := log st |})
      | WriteCompletes =>
          let '(col, result) :=
            bulk_write ops (mongo_col st) {| upserted_ids := 0; modified_count := 0 |} in
          ((upserted_ids result + modified_count result)%nat,
           {| driver := driver st;
              recent_scrapped_listings_urls := recent_scrapped_listings_urls st;
              mongo_col := col;
              log := log st |})
      end
  end.

(** The value returned by the worker pool: the integer of [return 0] or the
    list of records. *)
Inductive pool_result :=
  | PyInt (n : Z)
  | PyList (all_details : list listing).

Section Pool.

Variable json_loads : string → option json.

(** The tasks of the pool, with one worker: the candidates are scraped one
    after the other in the order of submission; [envs i] is what the
    passes for the candidate number [i] observe. *)
Fixpoint collect (envs : nat → nat → attempt) (i : nat)
    (urls_to_process : list Candidate.t) (st : scraper)
    : list listing * scraper :=
  match urls_to_process with
  | [] => ([], st)
  | url_data :: rest =>
      let '(detail, st') :=
        _scrape_listing_detail_selenium json_loads (envs i) url_data st in
      let '(all_details, st'') := collect envs (S i) rest st' in
      (match detail with
       | Some d => d :: all_details
       | None => all_details
       end, st'')
  end.

(** [_process_urls_threaded] *)
Definition _process_urls_threaded (envs : nat → nat → attempt)
    (write : write_reply) (urls_to_process : list Candidate.t) (st : scraper)
    : pool_result * scraper :=
  let '(all_details, st') := collect envs 0 urls_to_process st in
  match all_details with
  | [] => (PyInt 0, st')
  | _ =>
      let '(new_count, st'') := _save_details_to_mongo write all_details st' in
      (PyList all_details, st'')
  end.

(** [process_urls_directly] *)
Definition process_urls_directly (envs : nat → nat → attempt)
    (write : write_reply) (urls_to_process : list Candidate.t) (st : scraper)
    : pool_result * scraper :=
  let st :=
    {| driver := driver st;
       recent_scrapped_listings_urls := ∅;
       mongo_col := mongo_col st;
       log := log st |} in
  _process_urls_threaded envs write urls_to_process st.

End Pool.

(** * Properties *)

(** ** C1: the freshness filter *)

(** The filter as the specification words it: the identifying key of a
    candidate is its [listing_id] when present, otherwise its [url], and a
    candidate is kept when no stored document has that key. *)
Definition candidate_key (c : Candidate.t) : key :=
  match Candidate.listing_id c with
  | Some id => if Py.truthy id then ByListingId id
               else ByUrl (default "" (Candidate.url c))
  | None => ByUrl (default "" (Candidate.url c))
  end.

Definition key_stored (col : list listing) (k : key) : bool :=
  existsb (matches_key k) col.

Definition freshness_by_key (col : list listing) (listing_urls : list Candidate.t)
    : list Candidate.t :=
  List.filter (λ c, negb (key_stored col (candidate_key c))) listing_urls.

(** What the code keeps: a candidate with no usable [url], or one whose
    [url] is the [url] of no stored document. *)
Definition url_is_new (col : list listing) (c : Candidate.t) : bool :=
  match truthy_url c with
  | Some s => bool_decide (s ∉ url <$> col)
  | None => true
  end.

Lemma truthy_url_Some c s :
  truthy_url c = Some s ↔ Candidate.url c = Some s ∧ Py.truthy s = true.
Proof.
  unfold truthy_url. destruct (Candidate.url c) as [u|].
  - destruct (Py.truthy u) eqn:E; split.
    + intros [= ->]. done.
    + intros [[= ->] _]. done.
    + intros [=].
    + intros [[= ->] Hs]. congruence.
  - split; [intros [=] | intros [[=] _]].
Qed.

Lemma elem_of_find_url col url_list d :
  d ∈ find col (FindUrlIn url_list) ↔ d ∈ col ∧ url d ∈ url_list.
Proof.
  unfold find. rewrite !list_elem_of_In, filter_In, <- !list_elem_of_In.
  by rewrite bool_decide_eq_true.
Qed.

Lemma existing_urls col (listing_urls : list Candidate.t) s :
  s ∈ (list_to_set (url <$> find col (FindUrlIn (omap truthy_url listing_urls))) : gset string)
  ↔ s ∈ url <$> col ∧ s ∈ omap truthy_url listing_urls.
Proof.
  rewrite elem_of_list_to_set, !list_elem_of_fmap. split.
  - intros (d & -> & Hd). apply elem_of_find_url in Hd as [? ?]. eauto.
  - intros [(d & -> & Hd) Hin]. exists d. split; [done|].
    by apply elem_of_find_url.
Qed.

Lemma kept_iff_url_is_new col listing_urls c :
  c ∈ listing_urls →
  match Candidate.url c with
  | Some s =>
      bool_decide (s ∉ (list_to_set
        (url <$> find col (FindUrlIn (omap truthy_url listing_urls))) : gset string))
  | None => true
  end = url_is_new col c.
Proof.
  intros Hc. unfold url_is_new.
  destruct (truthy_url c) as [s|] eqn:Ht.
  - apply truthy_url_Some in Ht as Ht'. destruct Ht' as [-> Hs].
    apply bool_decide_ext. rewrite existing_urls.
    assert (s ∈ omap truthy_url listing_urls).
    { apply list_elem_of_omap. eauto. }
    tauto.
  - destruct (Candidate.url c) as [s|] eqn:Hu; [|done].
    apply bool_decide_eq_true. rewrite existing_urls. intros [_ Hin].
    apply list_elem_of_omap in Hin as (c' & _ & Hc').
    apply truthy_url_Some in Hc' as [Hu' Hs].
    unfold truthy_url in Ht. rewrite Hu, Hs in Ht. done.
Qed.

(** C1, as the code has it: the filter keeps, in order, exactly the
    candidates whose [url] is missing, empty or the [url] of no stored
    document; it sends one [$in] query whatever the number of candidates;
    and no candidate whose [url] is stored comes out.  The key is the [url]
    alone: [listing_id] plays no part. *)
Theorem freshness_filter_by_url (col : list listing) (listing_urls : list Candidate.t) :
  fst (freshness_filter col listing_urls) = List.filter (url_is_new col) listing_urls
  ∧ snd (freshness_filter col listing_urls) = [FindUrlIn (omap truthy_url listing_urls)]
  ∧ ∀ c s, c ∈ fst (freshness_filter col listing_urls) →
           truthy_url c = Some s → s ∉ url <$> col.
Proof.
  assert (Heq : fst (freshness_filter col listing_urls)
                = List.filter (url_is_new col) listing_urls).
  { unfold freshness_filter; simpl. apply filter_ext_in.
    intros c Hc. apply kept_iff_url_is_new. by apply list_elem_of_In. }
  split; [exact Heq|]. split; [reflexivity|].
  intros c s Hc Hs. rewrite Heq in Hc.
  apply list_elem_of_In, filter_In in Hc as [_ Hnew].
  unfold url_is_new in Hnew. rewrite Hs in Hnew.
  by apply bool_decide_eq_true in Hnew.
Qed.

(** A stored document and a candidate that carry the same [listing_id]
    under two addresses. *)
Definition stored_123 : listing :=
  {| title := "Downtown Diner"; city := Some "las vegas"; state := Some "nevada";
     asking_price := Some (VNum (Q2Qc (inject_Z 500000)));
     gross_revenue := ""; established := None; cashflow := "";
     description := ""; url := "https://www.bizbuysell.com/old/123/";
     category := ["Restaurants"; "Food"]; original_category := "Restaurant";
     listing_id := "123"; broker_name := ""; broker_profile := "";
     broker_number := ""; scraped_date := "2025-01-01 00:00:00" |}.

Definition candidate_123 : Candidate.t :=
  {| Candidate.title := Some "Downtown Diner";
     Candidate.url := Some "https://www.bizbuysell.com/new/123/";
     Candidate.listing_id := Some "123" |}.

(** C1 fails as stated: the [listing_id] of the candidate is stored, so the
    filter by identifying key removes it, yet the code keeps it. *)
Lemma freshness_filter_ignores_listing_id :
  key_stored [stored_123] (candidate_key candidate_123) = true
  ∧ freshness_by_key [stored_123] [candidate_123] = []
  ∧ fst (freshness_filter [stored_123] [candidate_123]) = [candidate_123].
Proof. split; [|split]; vm_compute; reflexivity. Qed.

(** ** C2: state and city constraints *)

(** A listing in Nevada, one subscriber who asks for Nevada and one who
    states no constraint (the merge fields are present and empty). *)
Definition nevada_listing : listing :=
  {| title := "Downtown Diner"; city := Some "las vegas"; state := Some "nevada";
     asking_price := Some (VNum (Q2Qc (inject_Z 500000)));
     gross_revenue := "$1,200,000"; established := None; cashflow := "$250,000";
     description := "Established diner"; url := "https://www.bizbuysell.com/new/123/";
     category := ["Restaurants"; "Food"]; original_category := "Restaurant";
     listing_id := "123"; broker_name := "Jo Broker"; broker_profile := "";
     broker_number := "702-555-0100"; scraped_date := "2025-01-02 00:00:00" |}.

Definition nevada_subscriber : subscriber :=
  {| email_address := Some "nevada@example.com";
     merge_fields := Some (<["STATES" := VStr "Nevada"]> ∅) |}.

Definition open_subscriber : subscriber :=
  {| email_address := Some "open@example.com";
     merge_fields := Some (<["STATES" := VStr ""]> ∅) |}.

(** A notifier with its key, called for the list that [main] names. *)
Definition configured_notifier : notifier :=
  {| api_key := Some "0123456789abcdef-us1"; self_list_id := None |}.

(** C2, on the code: the state of the listing is turned into the set of its
    characters, which no state name of two letters or more belongs to; the
    subscriber who asked for Nevada does not match the listing in Nevada,
    only the unconstrained subscriber does, and the one group, hence the
    one campaign that [notify] sends, has one member. *)
Theorem nevada_subscriber_not_matched (py_float : string → option Qc)
    (py_str : Qc → string) :
  subscriber_states (preferences_of py_str (<["STATES" := VStr "Nevada"]> ∅))
    = {["nevada"]}
  ∧ _listing_matches_subscriber py_float py_str nevada_listing None None ∅ {["nevada"]} ∅
    = Ret false
  ∧ match_subscribers_to_listings py_float py_str
      [nevada_subscriber; open_subscriber] [nevada_listing]
    = Ret [("open@example.com", [nevada_listing])]
  ∧ group_subscribers_by_matches [("open@example.com", [nevada_listing])]
    = [("56974c93", (["open@example.com"], [nevada_listing]))]
  ∧ notify py_float py_str (λ _ _, Some 7) (λ _ _ _, true) configured_notifier
      (Members [nevada_subscriber; open_subscriber]) [nevada_listing]
      (Some "7881b0503b")
    = Ret ({| matched_subscribers := 1; emails_sent := 1; groups_created := 1 |},
           [{| segment_id := 7; recipients := ["open@example.com"];
               content := [nevada_listing] |}]).
Proof. repeat split; vm_compute; reflexivity. Qed.

(** The same defect the other way round: a one-letter entry matches every
    state whose name holds that letter. *)
Lemma one_letter_state_matches (py_float : string → option Qc)
    (py_str : Qc → string) :
  _listing_matches_subscriber py_float py_str nevada_listing None None ∅ {["n"]} ∅
  = Ret true.
Proof. vm_compute. reflexivity. Qed.

(** ** C4: the group key *)

Section DictFacts.
Context {V : Type}.
Implicit Types (d : list (string * V)) (k : string) (v : V).

Lemma get_app_Some k v d d' :
  Dict.get k d = Some v → Dict.get k (d ++ d') = Some v.
Proof.
  induction d as [|[k' v'] d IH]; simpl; [done|].
  destruct (String.eqb k k'); auto.
Qed.

Lemma get_app_None k d d' :
  Dict.get k d = None → Dict.get k (d ++ d') = Dict.get k d'.
Proof.
  induction d as [|[k' v'] d IH]; simpl; [done|].
  destruct (String.eqb k k'); [done | auto].
Qed.

Lemma get_set_eq k v d : Dict.get k (Dict.set k v d) = Some v.
Proof.
  induction d as [|[k' v'] d IH]; simpl.
  - by rewrite String.eqb_refl.
  - destruct (String.eqb k k') eqn:E; simpl.
    + by rewrite String.eqb_refl.
    + by rewrite E.
Qed.

Lemma get_set_ne k k' v d :
  k ≠ k' → Dict.get k (Dict.set k' v d) = Dict.get k d.
Proof.
  intros Hne. apply String.eqb_neq in Hne as Hne'.
  induction d as [|[k'' v''] d IH]; simpl.
  - by rewrite Hne'.
  - destruct (String.eqb k' k'') eqn:E; simpl.
    + apply String.eqb_eq in E as <-. by rewrite Hne'.
    + destruct (String.eqb k k''); auto.
Qed.
End DictFacts.

(** Sorting forgets the order of the identifiers. *)
Lemma sorted_idents_perm (ids1 ids2 : list string) :
  ids1 ≡ₚ ids2 → merge_sort String.le ids1 = merge_sort String.le ids2.
Proof.
  intros Hp. apply (Sorted_unique String.le).
  - apply Sorted_merge_sort; apply _.
  - apply Sorted_merge_sort; apply _.
  - by rewrite !merge_sort_Permutation.
Qed.

Lemma listings_hash_perm (l1 l2 : list listing) :
  listing_ident <$> l1 ≡ₚ listing_ident <$> l2 →
  _create_listings_hash l1 = _create_listings_hash l2.
Proof.
  intros Hp. unfold _create_listings_hash. by rewrite (sorted_idents_perm _ _ Hp).
Qed.

(** A group, once made, keeps its key and its members. *)
Lemma group_add_keeps (groups : groups_t) entry h emails ls x :
  Dict.get h groups = Some (emails, ls) → x ∈ emails →
  ∃ emails', Dict.get h (group_add groups entry) = Some (emails', ls) ∧ x ∈ emails'.
Proof.
  intros Hget Hx. destruct entry as [email ml]. unfold group_add.
  destruct (Dict.get (_create_listings_hash ml) groups) as [[es ls']|] eqn:Hh.
  - destruct (decide (h = _create_listings_hash ml)) as [->|Hne].
    + rewrite get_set_eq. simplify_eq. exists (emails ++ [email]).
      split; [done|]. apply elem_of_app. by left.
    + rewrite get_set_ne by done. eauto.
  - exists emails. split; [|done]. by apply get_app_Some.
Qed.

(** The subscriber just added is a member of the group of its hash. *)
Lemma group_add_member (groups : groups_t) email ml :
  ∃ emails ls,
    Dict.get (_create_listings_hash ml) (group_add groups (email, ml))
      = Some (emails, ls) ∧ email ∈ emails.
Proof.
  unfold group_add.
  destruct (Dict.get (_create_listings_hash ml) groups) as [[es ls']|] eqn:Hh.
  - exists (es ++ [email]), ls'. rewrite get_set_eq. split; [done|].
    apply elem_of_app. right. by apply list_elem_of_singleton.
  - exists [email], ml. rewrite get_app_None by done. cbn [Dict.get].
    rewrite String.eqb_refl. split; [done|]. by apply list_elem_of_singleton.
Qed.

Lemma fold_group_add_keeps matches (groups : groups_t) h emails ls x :
  Dict.get h groups = Some (emails, ls) → x ∈ emails →
  ∃ emails', Dict.get h (fold_left group_add matches groups) = Some (emails', ls)
             ∧ x ∈ emails'.
Proof.
  revert groups emails. induction matches as [|entry matches IH]; intros groups emails Hget Hx.
  - cbn [fold_left]. eauto.
  - cbn [fold_left]. destruct (group_add_keeps groups entry h emails ls x Hget Hx)
      as (emails' & Hget' & Hx'). eauto.
Qed.

Lemma grouped_member matches (groups : groups_t) email ml :
  (email, ml) ∈ matches →
  ∃ emails ls,
    Dict.get (_create_listings_hash ml) (fold_left group_add matches groups)
      = Some (emails, ls) ∧ email ∈ emails.
Proof.
  revert groups. induction matches as [|entry matches IH]; intros groups Hin.
  - by apply elem_of_nil in Hin.
  - apply elem_of_cons in Hin as [<-|Hin]; cbn [fold_left].
    + destruct (group_add_member groups email ml) as (es & ls & Hget & Hx).
      destruct (fold_group_add_keeps matches _ _ _ _ _ Hget Hx) as (es' & ? & ?).
      eauto.
    + by apply IH.
Qed.

(** X21: the key depends only on the identifiers of the matched listings
    counted with their multiplicities, in any order; two subscribers whose
    matched listings carry the same identifiers receive the same key and
    are members of the one group stored under it. *)
Theorem same_identifiers_same_group
    (matches : list (string * list listing)) (e1 e2 : string) (l1 l2 : list listing) :
  (e1, l1) ∈ matches → (e2, l2) ∈ matches →
  listing_ident <$> l1 ≡ₚ listing_ident <$> l2 →
  _create_listings_hash l1 = _create_listings_hash l2
  ∧ ∃ emails ls,
      Dict.get (_create_listings_hash l1) (group_subscribers_by_matches matches)
        = Some (emails, ls)
      ∧ e1 ∈ emails ∧ e2 ∈ emails.
Proof.
  intros H1 H2 Hp. pose proof (listings_hash_perm l1 l2 Hp) as Hh.
  split; [done|]. unfold group_subscribers_by_matches.
  destruct (grouped_member matches [] e1 l1 H1) as (es1 & ls1 & Hg1 & Hx1).
  destruct (grouped_member matches [] e2 l2 H2) as (es2 & ls2 & Hg2 & Hx2).
  rewrite <- Hh in Hg2. simplify_eq. eauto.
Qed.

(** Two listings of the site whose addresses differ. *)
Definition listing_at (u : string) : listing :=
  {| title := "Listing"; city := Some "las vegas"; state := Some "nevada";
     asking_price := Some (VNum (Q2Qc (inject_Z 500000)));
     gross_revenue := ""; established := None; cashflow := "";
     description := ""; url := u; category := ["Retail"];
     original_category := "Retail"; listing_id := ""; broker_name := "";
     broker_profile := ""; broker_number := "";
     scraped_date := "2025-01-02 00:00:00" |}.

Definition listing_2116453 : listing :=
  listing_at "https://www.bizbuysell.com/business-opportunity/listing/2116453/".

Definition listing_2167564 : listing :=
  listing_at "https://www.bizbuysell.com/business-opportunity/listing/2167564/".

(** The theorem at work: two subscribers matched to the same two listings,
    found in opposite orders. *)
Lemma same_identifiers_same_group_witness :
  _create_listings_hash [listing_2116453; listing_2167564]
  = _create_listings_hash [listing_2167564; listing_2116453]
  ∧ ∃ emails ls,
      Dict.get (_create_listings_hash [listing_2116453; listing_2167564])
        (group_subscribers_by_matches
           [("a@example.com", [listing_2116453; listing_2167564]);
            ("b@example.com", [listing_2167564; listing_2116453])])
        = Some (emails, ls)
      ∧ "a@example.com" ∈ emails ∧ "b@example.com" ∈ emails.
Proof.
  apply (same_identifiers_same_group
           [("a@example.com", [listing_2116453; listing_2167564]);
            ("b@example.com", [listing_2167564; listing_2116453])]).
  - apply list_elem_of_here.
  - apply list_elem_of_further, list_elem_of_here.
  - cbn [fmap list_fmap]. apply perm_swap.
Defined.

(** C4, on the code: the key keeps eight hexadecimal digits of the MD5, and
    these two match lists, which share no listing, receive the same key; the
    two subscribers land in one group, which carries the listings of the
    first of them, so the second subscriber is sent listings that it did not
    match and none of its own.  The key is not the unique hash of the set of
    listings that [_create_listings_hash] and
    [group_subscribers_by_matches] announce. *)
Lemma distinct_matches_share_group_key :
  listing_ident <$> [listing_2116453] ≠ listing_ident <$> [listing_2167564]
  ∧ _create_listings_hash [listing_2116453] = "3ce4ae5e"
  ∧ _create_listings_hash [listing_2167564] = "3ce4ae5e"
  ∧ group_subscribers_by_matches
      [("a@example.com", [listing_2116453]); ("b@example.com", [listing_2167564])]
    = [("3ce4ae5e", (["a@example.com"; "b@example.com"], [listing_2116453]))].
Proof.
  split; [discriminate|]. repeat split; vm_compute; reflexivity.
Qed.

(** The bar that joins the identifiers is not set apart from the bars inside
    them either: one listing named [a|b] and two listings named [a] and [b]
    give the same text to the hash. *)
Lemma joined_identifiers_collide :
  _create_listings_hash [listing_at "a|b"]
  = _create_listings_hash [listing_at "a"; listing_at "b"].
Proof. vm_compute. reflexivity. Qed.

(** ** C8: matching is monotonic in the constraints *)

(** [b'] is at least as tight a lower bound as [b]: a bound where there was
    none, the same bound, or a higher number. *)
Inductive tighter_min : option pyval → option pyval → Prop :=
  | tighter_min_new b' : tighter_min b' None
  | tighter_min_same b : tighter_min b b
  | tighter_min_raise m m' :
      (m ≤ m')%Qc → tighter_min (Some (VNum m')) (Some (VNum m)).

(** The same for an upper bound: a lower number is tighter. *)
Inductive tighter_max : option pyval → option pyval → Prop :=
  | tighter_max_new b' : tighter_max b' None
  | tighter_max_same b : tighter_max b b
  | tighter_max_lower m m' :
      (m' ≤ m)%Qc → tighter_max (Some (VNum m')) (Some (VNum m)).

(** [X'] is at least as tight a set constraint as [X]: [X] was left
    unspecified, or [X'] is a specified part of it. *)
Definition tighter_set (X' X : gset string) : Prop :=
  X = ∅ ∨ (X' ≠ ∅ ∧ X' ⊆ X).

Record tighter (p' p : preferences) : Prop := {
  tighter_min_price : tighter_min (min_price p') (min_price p);
  tighter_max_price : tighter_max (max_price p') (max_price p);
  tighter_industries : tighter_set (subscriber_industries p') (subscriber_industries p);
  tighter_states : tighter_set (subscriber_states p') (subscriber_states p);
  tighter_cities : tighter_set (subscriber_cities p') (subscriber_cities p)
}.

(** The five conditions under which the matching function answers [True]. *)
Definition min_passes (bound : option pyval) (price : option Qc) : Prop :=
  match bound, price with
  | Some m, Some p => float_lt p m = Ret false
  | _, _ => True
  end.

Definition max_passes (bound : option pyval) (price : option Qc) : Prop :=
  match bound, price with
  | Some m, Some p => float_gt p m = Ret false
  | _, _ => True
  end.

Definition set_passes (X : gset string) (found : exc (gset string)) : Prop :=
  X = ∅ ∨ ∃ Y, found = Ret Y ∧ X ∩ Y ≠ ∅.

Definition listing_industries (l : listing) : gset string :=
  list_to_set ((λ cat, Py.strip (Py.lower cat)) <$> List.filter Py.truthy (category l)).

Lemma set_truthy_true X : set_truthy X = true ↔ X ≠ ∅.
Proof. unfold set_truthy. apply bool_decide_eq_true. Qed.

Lemma set_truthy_false X : set_truthy X = false ↔ X = ∅.
Proof.
  unfold set_truthy. rewrite bool_decide_eq_false.
  split; [apply dec_stable | intros -> ?; done].
Qed.

Section Monotone.

Variable py_float : string → option Qc.
Variable py_str : Qc → string.

Lemma matches_true_iff (l : listing) (lo hi : option pyval) (I S C : gset string) :
  _listing_matches_subscriber py_float py_str l lo hi I S C = Ret true
  ↔ min_passes lo (_normalize_price py_float py_str (asking_price l))
    ∧ max_passes hi (_normalize_price py_float py_str (asking_price l))
    ∧ set_passes I (Ret (listing_industries l))
    ∧ set_passes S (lowered_chars (state l))
    ∧ set_passes C (lowered_chars (city l)).
Proof.
  unfold _listing_matches_subscriber, min_passes, max_passes, set_passes.
  fold (listing_industries l).
  set (price := _normalize_price py_float py_str (asking_price l)).
  assert (Hset : ∀ X (found : exc (gset string)) (k : exc bool),
    ((b ← (if set_truthy X
           then Y ← found; Ret (set_truthy (X ∩ Y))
           else Ret true);
      if negb b then Ret false else k) = Ret true
     ↔ (X = ∅ ∨ ∃ Y, found = Ret Y ∧ X ∩ Y ≠ ∅) ∧ k = Ret true)).
  { intros X found k. destruct (set_truthy X) eqn:HX.
    - apply set_truthy_true in HX. destruct found as [Y|e]; simpl.
      + destruct (set_truthy (X ∩ Y)) eqn:HY; simpl.
        * apply set_truthy_true in HY. split; [|tauto]. eauto 10.
        * apply set_truthy_false in HY. split; [done|].
          intros [[?|(Y' & [= <-] & ?)] _]; done.
      + split; [done|]. intros [[?|(Y' & [=] & ?)] _]; done.
    - apply set_truthy_false in HX. simpl. tauto. }
  assert (Hmin : ∀ (below : exc bool) (k : exc bool),
    ((b ← below; if b : bool then Ret false else k) = Ret true
     ↔ below = Ret false ∧ k = Ret true)).
  { intros [[]|e] k; simpl; split; try done; try tauto.
    - intros [[=] _].
    - intros [[=] _]. }
  destruct lo as [m|], price as [p|]; rewrite Hmin; clear Hmin;
    (assert (Hmax : ∀ (above : exc bool) (k : exc bool),
       ((b ← above; if b : bool then Ret false else k) = Ret true
        ↔ above = Ret false ∧ k = Ret true));
     [intros [[]|e] k; simpl; split; try done; try tauto;
      intros [[=] _] |]);
    destruct hi as [h|]; rewrite Hmax; clear Hmax.
  all: destruct (set_truthy I) eqn:HI;
    [apply set_truthy_true in HI;
     destruct (set_truthy (I ∩ listing_industries l)) eqn:HIl; cbn [andb negb];
     [apply set_truthy_true in HIl | apply set_truthy_false in HIl]
    |apply set_truthy_false in HI; cbn [andb negb]].
  all: try (split; [intros (_ & _ & [=])
                   |intros (_ & _ & [?|(Y & [= <-] & ?)] & _); done]).
  all: rewrite !Hset.
  all: intuition eauto.
Qed.

Lemma min_passes_mono b' b price :
  tighter_min b' b → min_passes b' price → min_passes b price.
Proof.
  intros Ht. destruct Ht as [b'|b|m m' Hle]; unfold min_passes.
  - done.
  - done.
  - destruct price as [p|]; [|done]. simpl. intros [= H]. f_equal.
    apply bool_decide_eq_false in H. apply bool_decide_eq_false.
    intros Hlt. apply H. exact (Qclt_le_trans _ _ _ Hlt Hle).
Qed.

Lemma max_passes_mono b' b price :
  tighter_max b' b → max_passes b' price → max_passes b price.
Proof.
  intros Ht. destruct Ht as [b'|b|m m' Hle]; unfold max_passes.
  - by destruct price.
  - done.
  - destruct price as [p|]; [|done]. simpl. intros [= H]. f_equal.
    apply bool_decide_eq_false in H. apply bool_decide_eq_false.
    intros Hlt. apply H. exact (Qcle_lt_trans _ _ _ Hle Hlt).
Qed.

Lemma set_passes_mono X' X found :
  tighter_set X' X → set_passes X' found → set_passes X found.
Proof.
  intros [->|[Hne Hsub]]; [by left|].
  intros [->|(Y & -> & HY)]; [done|].
  right. exists Y. split; [done|].
  apply set_choose_L in HY as [x Hx]. apply elem_of_intersection in Hx as [Hx HxY].
  intros Hempty. apply (not_elem_of_empty (C := gset string) x).
  rewrite <- Hempty. apply elem_of_intersection. split; [by apply Hsub | done].
Qed.

Lemma matches_mono (p' p : preferences) (l : listing) :
  tighter p' p →
  matches_preferences py_float py_str p' l = Ret true →
  matches_preferences py_float py_str p l = Ret true.
Proof.
  intros [Hlo Hhi HI HS HC]. unfold matches_preferences.
  rewrite !matches_true_iff. intros (? & ? & ? & ? & ?).
  eauto 10 using min_passes_mono, max_passes_mono, set_passes_mono.
Qed.

Lemma matched_listings_mono (p' p : preferences) (listings found' found : list listing) :
  tighter p' p →
  matched_listings py_float py_str p' listings = Ret found' →
  matched_listings py_float py_str p listings = Ret found →
  found' `sublist_of` found.
Proof.
  intros Ht. revert found' found.
  induction listings as [|l rest IH]; intros found' found; cbn [matched_listings].
  - intros [= <-] [= <-]. constructor.
  - pose proof (matches_mono p' p l Ht) as Hl.
    destruct (matches_preferences py_float py_str p' l) as [b'|e']; [|done].
    destruct (matches_preferences py_float py_str p l) as [b|e]; [|done].
    destruct (matched_listings py_float py_str p' rest) as [t'|e']; [|done].
    destruct (matched_listings py_float py_str p rest) as [t|e]; [|done].
    cbn. intros [= <-] [= <-]. specialize (IH t' t eq_refl eq_refl).
    destruct b', b.
    + by apply sublist_skip.
    + by specialize (Hl eq_refl).
    + by apply sublist_cons.
    + done.
Qed.

End Monotone.

(** A merge field added to a profile gives preferences at least as tight. *)
Lemma tighter_set_refl X : tighter_set X X.
Proof. destruct (decide (X = ∅)); [by left | by right]. Qed.

Lemma merge_field_added_is_tighter (py_str : Qc → string)
    (mf : gmap string pyval) (k : string) (v : pyval) :
  mf !! k = None →
  tighter (preferences_of py_str (<[k := v]> mf)) (preferences_of py_str mf).
Proof.
  intros Hk.
  assert (Hset : ∀ j, tighter_set (lowered_set py_str (<[k := v]> mf !! j))
                                  (lowered_set py_str (mf !! j))).
  { intros j. rewrite lookup_insert. case_decide as E.
    - subst j. rewrite Hk. by left.
    - apply tighter_set_refl. }
  split; cbn [min_price max_price subscriber_industries subscriber_states
              subscriber_cities preferences_of]; try apply Hset.
  - rewrite lookup_insert. case_decide as E.
    + rewrite <- E, Hk. constructor.
    + constructor.
  - rewrite lookup_insert. case_decide as E.
    + rewrite <- E, Hk. constructor.
    + constructor.
Qed.

(** The two [continue] guards of [match_subscribers_to_listings]: no e-mail
    address, or no merge field. *)
Definition skipped (sub : subscriber) : bool :=
  match email_address sub with
  | None => true
  | Some email =>
      negb (Py.truthy email)
      || bool_decide (default (∅ : gmap string pyval) (merge_fields sub) = ∅)
  end.

(** The profile of a subscriber, and the listings matched to it: its entry
    in the result of [match_subscribers_to_listings] when it is the
    audience, no listing when it has no entry. *)
Definition profile (py_str : Qc → string) (sub : subscriber) : preferences :=
  preferences_of py_str (default ∅ (merge_fields sub)).

Definition match_set (py_float : string → option Qc) (py_str : Qc → string)
    (sub : subscriber) (listings : list listing) : exc (list listing) :=
  matches ← match_subscribers_to_listings py_float py_str [sub] listings;
  Ret (concat (snd <$> matches)).

Lemma match_set_skipped py_float py_str sub listings :
  skipped sub = true → match_set py_float py_str sub listings = Ret [].
Proof.
  unfold skipped, match_set, match_subscribers_to_listings.
  cbn [match_loop]. unfold match_subscriber.
  destruct (email_address sub) as [email|]; [|done].
  destruct (Py.truthy email); cbn [negb orb]; [|done].
  by intros ->.
Qed.

Lemma match_set_kept py_float py_str sub listings :
  skipped sub = false →
  match_set py_float py_str sub listings
  = matched_listings py_float py_str (profile py_str sub) listings.
Proof.
  unfold skipped, match_set, match_subscribers_to_listings, profile.
  cbn [match_loop]. unfold match_subscriber.
  destruct (email_address sub) as [email|]; [|done].
  destruct (Py.truthy email); cbn [negb orb]; [|done].
  intros ->.
  destruct (matched_listings py_float py_str _ listings) as [[|l found]|e]; [done| |done].
  cbn. by rewrite app_nil_r.
Qed.

(** C8, as the code has it: for a subscriber that has at least one merge
    field, a profile [sub'] at least as tight as [sub] (a set specified
    where [sub] left it open, or narrowed; a price bound added or moved
    inwards) matches no listing that [sub] does not match, listing by
    listing and for the match set of a batch.  Read from [sub] to [sub']
    this is adding a constraint, from [sub'] to [sub] removing one. *)
Theorem matching_is_monotonic (py_float : string → option Qc)
    (py_str : Qc → string) (sub' sub : subscriber) (listings : list listing) :
  skipped sub = false →
  tighter (profile py_str sub') (profile py_str sub) →
  (∀ l, matches_preferences py_float py_str (profile py_str sub') l = Ret true →
        matches_preferences py_float py_str (profile py_str sub) l = Ret true)
  ∧ (∀ found' found,
        match_set py_float py_str sub' listings = Ret found' →
        match_set py_float py_str sub listings = Ret found →
        found' `sublist_of` found).
Proof.
  intros Hs Ht. split.
  - intros l. by apply matches_mono.
  - intros found' found. rewrite (match_set_kept _ _ sub) by done.
    destruct (skipped sub') eqn:Hs'.
    + rewrite match_set_skipped by done. intros [= <-] _. apply sublist_nil_l.
    + rewrite match_set_kept by done. by apply matched_listings_mono.
Qed.

(** The theorem at work: a price floor added to the profile of a subscriber
    that has a merge field. *)
Definition floor_subscriber : subscriber :=
  {| email_address := Some "open@example.com";
     merge_fields :=
       Some (<["DPR_MIN" := VNum (Q2Qc (inject_Z 600000))]>
               (<["STATES" := VStr ""]> ∅)) |}.

Lemma matching_is_monotonic_witness :
  skipped open_subscriber = false
  ∧ tighter (profile (λ _, "") floor_subscriber) (profile (λ _, "") open_subscriber)
  ∧ (∀ l, matches_preferences (λ _, None) (λ _, "") (profile (λ _, "") floor_subscriber) l
          = Ret true →
          matches_preferences (λ _, None) (λ _, "") (profile (λ _, "") open_subscriber) l
          = Ret true)
  ∧ (∀ found' found,
        match_set (λ _, None) (λ _, "") floor_subscriber [nevada_listing] = Ret found' →
        match_set (λ _, None) (λ _, "") open_subscriber [nevada_listing] = Ret found →
        found' `sublist_of` found).
Proof.
  assert (Hs : skipped open_subscriber = false) by (vm_compute; reflexivity).
  assert (Ht : tighter (profile (λ _, "") floor_subscriber)
                       (profile (λ _, "") open_subscriber)).
  { apply (merge_field_added_is_tighter (λ _, "") (<["STATES" := VStr ""]> ∅)).
    vm_compute. reflexivity. }
  split; [exact Hs|]. split; [exact Ht|].
  exact (matching_is_monotonic (λ _, None) (λ _, "") floor_subscriber open_subscriber
           [nevada_listing] Hs Ht).
Defined.

(** A subscriber before and after the first merge field of its profile is
    filled in. *)
Definition unfilled_subscriber : subscriber :=
  {| email_address := Some "new@example.com"; merge_fields := Some ∅ |}.

Definition first_field_subscriber : subscriber :=
  {| email_address := Some "new@example.com";
     merge_fields := Some (<["INDUSTRIES" := VStr "food"]> ∅) |}.

(** C8 fails as stated: a subscriber without any merge field is passed over
    and matches nothing; once its industries are specified, which the claim
    counts as adding a constraint, it matches the listing. *)
Lemma first_merge_field_adds_a_match :
  tighter (profile (λ _, "") first_field_subscriber)
          (profile (λ _, "") unfilled_subscriber)
  ∧ match_set (λ _, None) (λ _, "") unfilled_subscriber [nevada_listing] = Ret []
  ∧ match_set (λ _, None) (λ _, "") first_field_subscriber [nevada_listing]
    = Ret [nevada_listing]
  ∧ match_subscribers_to_listings (λ _, None) (λ _, "") [unfilled_subscriber]
      [nevada_listing] = Ret []
  ∧ match_subscribers_to_listings (λ _, None) (λ _, "") [first_field_subscriber]
      [nevada_listing] = Ret [("new@example.com", [nevada_listing])].
Proof.
  split.
  { apply (merge_field_added_is_tighter (λ _, "") ∅). apply lookup_empty. }
  repeat split; vm_compute; reflexivity.
Qed.

(** ** C10: subscribers that matching passes over *)

Section Skipped.

Variable py_float : string → option Qc.
Variable py_str : Qc → string.

Lemma match_subscriber_skipped listings matches sub :
  skipped sub = true →
  match_subscriber py_float py_str listings matches sub = Ret matches.
Proof.
  unfold skipped, match_subscriber. destruct (email_address sub) as [email|]; [|done].
  destruct (Py.truthy email); cbn [negb orb]; [|done].
  intros ->. done.
Qed.

Lemma match_loop_skipped listings before sub after matches :
  skipped sub = true →
  match_loop py_float py_str listings (before ++ sub :: after) matches
  = match_loop py_float py_str listings (before ++ after) matches.
Proof.
  intros Hs. revert matches.
  induction before as [|s before IH]; intros matches; cbn [app match_loop].
  - by rewrite match_subscriber_skipped.
  - destruct (match_subscriber py_float py_str listings matches s); cbn; [apply IH|done].
Qed.

(** A profile without any constraint matches every listing. *)
Lemma open_profile_matches_all (l : listing) :
  _listing_matches_subscriber py_float py_str l None None ∅ ∅ ∅ = Ret true.
Proof.
  unfold _listing_matches_subscriber.
  destruct (_normalize_price py_float py_str (asking_price l)); reflexivity.
Qed.

End Skipped.

(** C10: a subscriber without an e-mail address, or whose merge fields are
    missing or empty, leaves no trace in matching: the matches, hence the
    groups, the campaigns and the summary of [notify], are those of the
    audience without that subscriber; yet the matching rule itself accepts
    every listing for a profile without constraints. *)
Theorem skipped_subscriber_is_invisible
    (py_float : string → option Qc) (py_str : Qc → string)
    (create_segment : list string → string → option Z)
    (send_campaign : Z → list listing → list string → bool)
    (self : notifier) (list_id : option string)
    (before after : list subscriber) (sub : subscriber) (listings : list listing) :
  skipped sub = true →
  match_subscribers_to_listings py_float py_str (before ++ sub :: after) listings
  = match_subscribers_to_listings py_float py_str (before ++ after) listings
  ∧ notify py_float py_str create_segment send_campaign self
      (Members (before ++ sub :: after)) listings list_id
    = notify py_float py_str create_segment send_campaign self
        (Members (before ++ after)) listings list_id
  ∧ ∀ l, _listing_matches_subscriber py_float py_str l None None ∅ ∅ ∅ = Ret true.
Proof.
  intros Hs.
  assert (Hm : match_subscribers_to_listings py_float py_str (before ++ sub :: after) listings
               = match_subscribers_to_listings py_float py_str (before ++ after) listings).
  { unfold match_subscribers_to_listings. by apply match_loop_skipped. }
  split; [exact Hm|]. split.
  - unfold notify, notify_guards. destruct (negb _); [done|]. cbv zeta.
    destruct (negb _); [done|]. cbn [fetch_subscribers mbind exc_bind].
    unfold notify_fetched. by rewrite Hm.
  - apply open_profile_matches_all.
Qed.

(** The theorem at work: a member with an address and an empty map of merge
    fields, between the two subscribers of the Nevada example. *)
Definition blank_subscriber : subscriber :=
  {| email_address := Some "blank@example.com"; merge_fields := Some ∅ |}.

Lemma skipped_subscriber_is_invisible_witness :
  skipped blank_subscriber = true
  ∧ match_subscribers_to_listings (λ _, None) (λ _, "")
      ([nevada_subscriber] ++ blank_subscriber :: [open_subscriber]) [nevada_listing]
    = match_subscribers_to_listings (λ _, None) (λ _, "")
        ([nevada_subscriber] ++ [open_subscriber]) [nevada_listing]
  ∧ notify (λ _, None) (λ _, "") (λ _ _, Some 1) (λ _ _ _, true) configured_notifier
      (Members ([nevada_subscriber] ++ blank_subscriber :: [open_subscriber]))
      [nevada_listing] (Some "7881b0503b")
    = notify (λ _, None) (λ _, "") (λ _ _, Some 1) (λ _ _ _, true) configured_notifier
        (Members ([nevada_subscriber] ++ [open_subscriber]))
        [nevada_listing] (Some "7881b0503b")
  ∧ ∀ l, _listing_matches_subscriber (λ _, None) (λ _, "") l None None ∅ ∅ ∅ = Ret true.
Proof.
  split; [reflexivity|].
  exact (skipped_subscriber_is_invisible (λ _, None) (λ _, "") (λ _ _, Some 1)
           (λ _ _ _, true) configured_notifier (Some "7881b0503b")
           [nevada_subscriber] [open_subscriber] blank_subscriber
           [nevada_listing] eq_refl).
Defined.

(** The subscriber passed over matches nothing even alone. *)
Example blank_subscriber_matches_nothing :
  match_subscribers_to_listings (λ _, None) (λ _, "") [blank_subscriber] [nevada_listing]
  = Ret [].
Proof. reflexivity. Qed.

(** ** C3: the attempts on one candidate *)

(** The number of page loads in a trace. *)
Definition navigations (evs : list event) : nat :=
  length (List.filter (λ e, match e with Navigate _ => true | _ => false end) evs).

Section Attempts.

Variable json_loads : string → option json.

(** The pass sees the access-denied signature. *)
Definition blocked (a : attempt) : Prop :=
  get a = Ret tt ∧ ∃ txt, access_denied_txt a = Some txt ∧ Py.truthy txt = true.

(** The pass loads a page that is not blocked, from which no record is
    extracted, and which shows no starting-bid marker. *)
Definition unextractable (a : attempt) (url_data : Candidate.t) : Prop :=
  get a = Ret tt
  ∧ (∀ txt, access_denied_txt a = Some txt → Py.truthy txt = false)
  ∧ ∃ page, page_source a = Ret page
      ∧ _extract_detail_data json_loads (cat_reply a) (loc_reply a) (now a)
          page url_data = None
      ∧ bid_post a = false.

(** What a pass with a live driver decides. *)
Definition verdict (a : attempt) (url_data : Candidate.t) : flow :=
  match get a with
  | Raise _ => Continue
  | Ret _ =>
      if match access_denied_txt a with
         | Some txt => Py.truthy txt
         | None => false
         end
      then Continue
      else
        match page_source a with
        | Raise _ => Continue
        | Ret page =>
            match _extract_detail_data json_loads (cat_reply a) (loc_reply a)
                    (now a) page url_data with
            | Some detail_data => Return (Some detail_data)
            | None => if bid_post a then Return None else Continue
            end
        end
  end.

Lemma on_exception_continues e a st :
  on_exception e a st = (Continue, reset_driver a st).
Proof. by destruct e. Qed.

Lemma attempt_once_live a u url_data st d :
  driver st = Some d →
  attempt_once json_loads a u url_data st
  = match verdict a url_data with
    | Continue => (Continue, reset_driver a (record (Navigate u) st))
    | Return r => (Return r, record (Navigate u) st)
    end.
Proof.
  intros Hd. unfold attempt_once, verdict. rewrite Hd.
  destruct (get a) as [[]|e]; [|apply on_exception_continues].
  destruct (match access_denied_txt a with Some txt => Py.truthy txt | None => false end);
    [done|].
  destruct (page_source a) as [page|e]; [|apply on_exception_continues].
  destruct (_extract_detail_data json_loads (cat_reply a) (loc_reply a) (now a)
              page url_data); [done|].
  by destruct (bid_post a).
Qed.

Lemma attempt_once_dead a u url_data st :
  driver st = None →
  attempt_once json_loads a u url_data st = (Return None, st).
Proof. intros Hd. unfold attempt_once. by rewrite Hd. Qed.

Lemma blocked_continues a url_data : blocked a → verdict a url_data = Continue.
Proof.
  intros (Hg & txt & Ht & Htr). unfold verdict. by rewrite Hg, Ht, Htr.
Qed.

Lemma unextractable_continues a url_data :
  unextractable a url_data → verdict a url_data = Continue.
Proof.
  intros (Hg & Hd & page & Hp & He & Hb). unfold verdict. rewrite Hg.
  destruct (access_denied_txt a) as [txt|] eqn:Ht.
  - rewrite (Hd txt eq_refl), Hp, He, Hb. done.
  - rewrite Hp, He, Hb. done.
Qed.

Lemma log_record e st : log (record e st) = log st ++ [e].
Proof. done. Qed.

Lemma log_reset_driver a st : log (reset_driver a st) = log st ++ [Reset].
Proof.
  unfold reset_driver. cbn [driver record].
  destruct (driver st); [destruct (reset a)|]; done.
Qed.

Lemma recent_reset_driver a st :
  recent_scrapped_listings_urls (reset_driver a st) = recent_scrapped_listings_urls st.
Proof.
  unfold reset_driver. cbn [driver record].
  destruct (driver st); [destruct (reset a)|]; done.
Qed.

(** The scrape of a candidate that passes the two guards before the loop,
    pass by pass. *)
Lemma scrape_unfold env url_data st u :
  Candidate.url url_data = Some u → Py.truthy u = true →
  u ∉ recent_scrapped_listings_urls st →
  _scrape_listing_detail_selenium json_loads env url_data st
  = match attempt_once json_loads (env 1%nat) u url_data st with
    | (Return r, st1) => (r, st1)
    | (Continue, st1) =>
        match attempt_once json_loads (env 2%nat) u url_data st1 with
        | (Return r, st2) => (r, st2)
        | (Continue, st2) => (None, st2)
        end
    end.
Proof.
  intros Hu Ht Hr. unfold _scrape_listing_detail_selenium.
  rewrite Hu. cbn [from_option id]. rewrite Ht. cbn [negb].
  rewrite bool_decide_eq_false_2 by done. reflexivity.
Qed.

(** C3, as the code has it.  For a candidate that reaches the loop with a
    live driver: the trace grows by at most [max_trials] = 2 page loads,
    all of the address of the candidate.  When the first pass sees the
    access-denied signature, or extracts no record from a page without a
    starting-bid marker, [reset_driver] is called at once; if a driver is
    live after it, the same address is loaded a second time, and a second
    pass that fails in the same way is followed by one more reset and the
    result [None]; if [reset_driver] leaves no driver, the guard at the
    head of the loop ends the scrape with [None] and there is no second
    load. *)
Theorem scrape_attempts (env : nat → attempt) (url_data : Candidate.t)
    (st : scraper) (u : string) (d : nat) :
  Candidate.url url_data = Some u → Py.truthy u = true →
  u ∉ recent_scrapped_listings_urls st → driver st = Some d →
  let run := _scrape_listing_detail_selenium json_loads env url_data st in
  ∃ evs, log run.2 = log st ++ evs
    ∧ (navigations evs ≤ max_trials)%nat
    ∧ (∀ v, Navigate v ∈ evs → v = u)
    ∧ (blocked (env 1%nat) ∨ unextractable (env 1%nat) url_data →
        match driver (reset_driver (env 1%nat) (record (Navigate u) st)) with
        | Some _ =>
            ∃ rest, evs = Navigate u :: Reset :: Navigate u :: rest
              ∧ (blocked (env 2%nat) ∨ unextractable (env 2%nat) url_data →
                  run.1 = None ∧ rest = [Reset])
        | None => evs = [Navigate u; Reset] ∧ run.1 = None
        end).
Proof.
  intros Hu Ht Hr Hd run. subst run.
  assert (Hfail : ∀ a, blocked a ∨ unextractable a url_data →
                       verdict a url_data = Continue).
  { intros a [?|?]; [by apply blocked_continues | by apply unextractable_continues]. }
  assert (Hin1 : ∀ v, Navigate v ∈ [Navigate u] → v = u).
  { intros v Hv. apply list_elem_of_singleton in Hv. congruence. }
  rewrite (scrape_unfold env url_data st u Hu Ht Hr).
  rewrite (attempt_once_live (env 1%nat) u url_data st d Hd).
  destruct (verdict (env 1%nat) url_data) as [r1|] eqn:V1.
  - (* the first pass returns *)
    exists [Navigate u]. cbn [fst snd]. split; [apply log_record|].
    split; [cbn; unfold max_trials; lia|]. split; [exact Hin1|].
    intros Hf. apply Hfail in Hf. congruence.
  - (* the first pass goes on to the reset *)
    set (st1 := reset_driver (env 1%nat) (record (Navigate u) st)).
    assert (Hlog1 : log st1 = log st ++ [Navigate u; Reset]).
    { unfold st1. rewrite log_reset_driver, log_record, <- app_assoc. done. }
    destruct (driver st1) as [d1|] eqn:Hd1.
    + rewrite (attempt_once_live (env 2%nat) u url_data st1 d1 Hd1).
      destruct (verdict (env 2%nat) url_data) as [r2|] eqn:V2.
      * exists [Navigate u; Reset; Navigate u]. cbn [fst snd].
        split; [rewrite log_record, Hlog1, <- app_assoc; done|].
        split; [cbn; unfold max_trials; lia|].
        split.
        { intros v Hv. repeat (apply elem_of_cons in Hv as [Hv|Hv]; [congruence|]).
          by apply elem_of_nil in Hv. }
        intros _. exists []. split; [done|].
        intros Hf. apply Hfail in Hf. congruence.
      * exists [Navigate u; Reset; Navigate u; Reset]. cbn [fst snd].
        split; [rewrite log_reset_driver, log_record, Hlog1, <- !app_assoc; done|].
        split; [cbn; unfold max_trials; lia|].
        split.
        { intros v Hv. repeat (apply elem_of_cons in Hv as [Hv|Hv]; [congruence|]).
          by apply elem_of_nil in Hv. }
        intros _. exists [Reset]. done.
    + rewrite (attempt_once_dead (env 2%nat) u url_data st1 Hd1).
      exists [Navigate u; Reset]. cbn [fst snd].
      split; [exact Hlog1|]. split; [cbn; unfold max_trials; lia|].
      split.
      { intros v Hv. repeat (apply elem_of_cons in Hv as [Hv|Hv]; [congruence|]).
        by apply elem_of_nil in Hv. }
      done.
Qed.

(** Two passes that both raise or fail leave no record either. *)
Lemma two_failed_passes_give_none env url_data st u d :
  Candidate.url url_data = Some u → Py.truthy u = true →
  u ∉ recent_scrapped_listings_urls st → driver st = Some d →
  verdict (env 1%nat) url_data = Continue →
  verdict (env 2%nat) url_data = Continue →
  (_scrape_listing_detail_selenium json_loads env url_data st).1 = None.
Proof.
  intros Hu Ht Hr Hd V1 V2.
  rewrite (scrape_unfold env url_data st u Hu Ht Hr).
  rewrite (attempt_once_live (env 1%nat) u url_data st d Hd), V1.
  destruct (driver (reset_driver (env 1%nat) (record (Navigate u) st))) as [d1|] eqn:Hd1.
  - by rewrite (attempt_once_live (env 2%nat) u url_data _ d1 Hd1), V2.
  - by rewrite (attempt_once_dead (env 2%nat) u url_data _ Hd1).
Qed.

End Attempts.

(** *** A worked environment *)

(** The double quote, to write JSON texts. *)
Definition dq : string := String (ascii_of_N 34) EmptyString.

Definition quoted (s : string) : string := dq +:+ s +:+ dq.

Definition category_reply_text : string :=
  "{" +:+ quoted "category" +:+ ": [" +:+ quoted "Restaurants" +:+ ", "
      +:+ quoted "Food" +:+ "]}".

Definition location_reply_text : string :=
  "{" +:+ quoted "state" +:+ ": " +:+ quoted "nevada" +:+ ", "
      +:+ quoted "city" +:+ ": " +:+ quoted "las vegas" +:+ "}".

(** A reading of [json.loads] that knows the two texts above and rejects
    every other text. *)
Definition sample_loads (text : string) : option json :=
  if String.eqb text category_reply_text
  then Some (JObj [("category", JArr [JStr "Restaurants"; JStr "Food"])])
  else if String.eqb text location_reply_text
  then Some (JObj [("state", JStr "nevada"); ("city", JStr "las vegas")])
  else None.

(** The page of a listing with a price, a location and a broker. *)
Definition diner_page : soup :=
  {| ld_scripts :=
       [ LD.Invalid; LD.Other;
         LD.Product
           {| LD.p_name := "Downtown Diner";
              LD.p_description := "Established diner";
              LD.p_offers :=
                Some {| LD.offeredBy :=
                          Some {| LD.name := "Business Listed By:Jo Broker";
                                  LD.url := "https://www.bizbuysell.com/broker/jo/" |};
                        LD.price := Some (VNum (Q2Qc (inject_Z 500000))) |};
              LD.p_category := "Restaurant";
              LD.p_productId := "123" |} ];
     broker_card := None;
     span_f_l := ["Las Vegas, NV"];
     ctc_phone := ["702-555-0100"];
     help_g4 := ["$500,000"; "$250,000"; "$1,200,000"] |}.

(** A pass that loads the page and receives well-formed replies. *)
Definition good_attempt : attempt :=
  {| get := Ret tt;
     access_denied_txt := None;
     page_source := Ret diner_page;
     cat_reply := AiContent category_reply_text;
     loc_reply := AiContent location_reply_text;
     now := "2025-01-02 00:00:00";
     bid_post := false;
     reset := Created (Some 1%nat) |}.

(** A pass that meets the access-denied page; [r] is how the reset ends. *)
Definition blocked_attempt (r : reset_result) : attempt :=
  {| get := Ret tt;
     access_denied_txt := Some "Access Denied";
     page_source := Ret diner_page;
     cat_reply := AiRaises;
     loc_reply := AiRaises;
     now := "2025-01-02 00:00:00";
     bid_post := false;
     reset := r |}.

Definition live_scraper : scraper :=
  {| driver := Some 0%nat;
     recent_scrapped_listings_urls := ∅;
     mongo_col := [];
     log := [] |}.

Definition diner_record : listing :=
  {| title := "Downtown Diner"; city := Some "las vegas"; state := Some "nevada";
     asking_price := Some (VNum (Q2Qc (inject_Z 500000)));
     gross_revenue := "$1,200,000"; established := None; cashflow := "$250,000";
     description := "Established diner";
     url := "https://www.bizbuysell.com/new/123/";
     category := ["Restaurants"; "Food"]; original_category := "Restaurant";
     listing_id := "123"; broker_name := "Jo Broker";
     broker_profile := "https://www.bizbuysell.com/broker/jo/";
     broker_number := "702-555-0100"; scraped_date := "2025-01-02 00:00:00" |}.

(** Scenario A of the specification: price 500000 and a location give a
    record with the enriched city, state and categories. *)
Example extraction_of_diner :
  _extract_detail_data sample_loads (AiContent category_reply_text)
    (AiContent location_reply_text) "2025-01-02 00:00:00" diner_page candidate_123
  = Some diner_record.
Proof. vm_compute. reflexivity. Qed.

(** Scenario C: a block on the first pass, one reset, success on the
    second. *)
Definition blocked_once (trial : nat) : attempt :=
  match trial with
  | 1%nat => blocked_attempt (Created (Some 1%nat))
  | _ => good_attempt
  end.

Example blocked_once_recovers :
  _scrape_listing_detail_selenium sample_loads blocked_once candidate_123 live_scraper
  = (Some diner_record,
     {| driver := Some 1%nat; recent_scrapped_listings_urls := ∅; mongo_col := [];
        log := [ Navigate "https://www.bizbuysell.com/new/123/"; Reset;
                 Navigate "https://www.bizbuysell.com/new/123/" ] |}).
Proof. vm_compute. reflexivity. Qed.

Lemma blocked_attempt_is_blocked r : blocked (blocked_attempt r).
Proof. split; [done|]. by exists "Access Denied". Qed.

(** The theorem at work on scenario C. *)
Lemma scrape_attempts_witness :
  let run := _scrape_listing_detail_selenium sample_loads blocked_once
               candidate_123 live_scraper in
  ∃ evs, log run.2 = log live_scraper ++ evs
    ∧ (navigations evs ≤ max_trials)%nat
    ∧ (∀ v, Navigate v ∈ evs → v = "https://www.bizbuysell.com/new/123/")
    ∧ (blocked (blocked_once 1%nat)
       ∨ unextractable sample_loads (blocked_once 1%nat) candidate_123 →
        match driver (reset_driver (blocked_once 1%nat)
                        (record (Navigate "https://www.bizbuysell.com/new/123/")
                           live_scraper)) with
        | Some _ =>
            ∃ rest, evs = Navigate "https://www.bizbuysell.com/new/123/" :: Reset
                          :: Navigate "https://www.bizbuysell.com/new/123/" :: rest
              ∧ (blocked (blocked_once 2%nat)
                 ∨ unextractable sample_loads (blocked_once 2%nat) candidate_123 →
                  run.1 = None ∧ rest = [Reset])
        | None => evs = [Navigate "https://www.bizbuysell.com/new/123/"; Reset]
                  ∧ run.1 = None
        end).
Proof.
  apply (scrape_attempts sample_loads blocked_once candidate_123 live_scraper
           "https://www.bizbuysell.com/new/123/" 0%nat).
  - reflexivity.
  - reflexivity.
  - apply not_elem_of_empty.
  - reflexivity.
Defined.

(** C3 fails as stated: the first pass is blocked and the browser cannot be
    started again; the guard at the head of the loop then returns [None],
    and the candidate is given up after a single load, with a trial left. *)
Lemma blocked_without_new_driver_is_dropped :
  blocked (blocked_attempt (Created None))
  ∧ (_scrape_listing_detail_selenium sample_loads
       (λ _, blocked_attempt (Created None)) candidate_123 live_scraper).1 = None
  ∧ log (_scrape_listing_detail_selenium sample_loads
           (λ _, blocked_attempt (Created None)) candidate_123 live_scraper).2
    = [Navigate "https://www.bizbuysell.com/new/123/"; Reset]
  ∧ (navigations
       (log (_scrape_listing_detail_selenium sample_loads
               (λ _, blocked_attempt (Created None)) candidate_123 live_scraper).2)
     < max_trials)%nat.
Proof.
  split; [apply blocked_attempt_is_blocked|].
  split; [vm_compute; reflexivity|]. split; [vm_compute; reflexivity|].
  vm_compute. lia.
Qed.

(** ** C5 and C6: acceptance of a record and the enrichment replies *)

(** The asking price and the location as the acceptance test reads them. *)
Definition price_present (page : soup) : bool :=
  match JsonData.asking_price (_extract_json_ld_data page) with
  | Some v => pyval_truthy v
  | None => false
  end.

Definition location_present (page : soup) : bool :=
  Py.truthy (_extract_location page).

Section Acceptance.

Variable json_loads : string → option json.

(** The value returned by [ai_extract_city_and_state] is a dict. *)
Definition location_is_dict (reply : ai_reply) : Prop :=
  ∀ location, ∃ fields,
    ai_extract_city_and_state json_loads location reply = Some (JObj fields).

(** A record is returned only if the price and the location are present; it
    is then returned exactly when the location reply is a dict. *)
Lemma extraction_accepts_iff cat_reply loc_reply now page url_data :
  is_Some (_extract_detail_data json_loads cat_reply loc_reply now page url_data)
  ↔ price_present page = true ∧ location_present page = true
    ∧ ∃ fields, ai_extract_city_and_state json_loads (_extract_location page) loc_reply
                = Some (JObj fields).
Proof.
  unfold _extract_detail_data, extract_body, price_present, location_present.
  destruct (match JsonData.asking_price (_extract_json_ld_data page) with
            | Some v => pyval_truthy v
            | None => false
            end); cbn [andb].
  2:{ split; [intros [? [=]] | intros [[=] _]]. }
  destruct (Py.truthy (_extract_location page)); cbn [andb].
  2:{ split; [intros [? [=]] | intros (_ & [=] & _)]. }
  destruct (ai_extract_city_and_state json_loads (_extract_location page) loc_reply)
    as [[| | | | |fields]|]; cbn.
  1-5,7: split; [intros [? [=]] | intros (_ & _ & ? & [=])].
  split; [eauto | intros _; eauto].
Qed.

(** The replies of the category service never stop a record: the result is
    a non-empty list of terms of the vocabulary or the raw category. *)
Lemma categorize_listing_vocabulary_or_raw category reply :
  (categorize_listing json_loads category reply ≠ []
   ∧ Forall (λ c, c ∈ categories) (categorize_listing json_loads category reply))
  ∨ categorize_listing json_loads category reply = raw_category category.
Proof.
  unfold categorize_listing. destruct reply as [|text]; [by right|].
  destruct (json_loads _) as [[| | | | |fields]|]; try by right.
  destruct (iterate _) as [cats|e]; [|by right].
  destruct (omap in_vocabulary cats) as [|c valid] eqn:Hv; [by right|].
  left. split; [done|]. rewrite <- Hv. apply Forall_forall. intros x Hx.
  apply list_elem_of_omap in Hx as (j & _ & Hj).
  unfold in_vocabulary in Hj. destruct j; try done.
  case_bool_decide; by simplify_eq.
Qed.

(** A call of the location service that raises gives the empty dict, hence
    an empty city and an empty state. *)
Lemma location_service_error_gives_empty_fields location :
  ai_extract_city_and_state json_loads location AiRaises = Some (JObj [])
  ∧ location_get (ai_extract_city_and_state json_loads location AiRaises) "city"
    = Ret (Some EmptyString)
  ∧ location_get (ai_extract_city_and_state json_loads location AiRaises) "state"
    = Ret (Some EmptyString).
Proof. done. Qed.

(** C6, on the code: when the text of the location reply is not JSON, the
    handler of [JSONDecodeError] logs and does not return, so the function
    gives [None]; reading the city from it raises, the [except] clause of
    [_extract_detail_data] turns that into [None], and the record is
    rejected whatever the page holds. *)
Theorem malformed_location_reply_rejects_record
    (text : string) (cat_reply : ai_reply) (now : string) (page : soup)
    (url_data : Candidate.t) :
  json_loads (Py.strip text) = None →
  ai_extract_city_and_state json_loads (_extract_location page) (AiContent text) = None
  ∧ location_get (ai_extract_city_and_state json_loads (_extract_location page)
                    (AiContent text)) "city" = Raise AttributeError
  ∧ _extract_detail_data json_loads cat_reply (AiContent text) now page url_data = None.
Proof.
  intros Hbad.
  assert (Hnone : ai_extract_city_and_state json_loads (_extract_location page)
                    (AiContent text) = None).
  { unfold ai_extract_city_and_state. by rewrite Hbad. }
  split; [exact Hnone|]. split; [by rewrite Hnone|].
  destruct (_extract_detail_data json_loads cat_reply (AiContent text) now page url_data)
    as [r|] eqn:E; [|done].
  assert (Hs : is_Some (_extract_detail_data json_loads cat_reply (AiContent text)
                          now page url_data)) by (rewrite E; eauto).
  apply extraction_accepts_iff in Hs as (_ & _ & fields & Hf). congruence.
Qed.

(** A page that shows the starting-bid marker and yields no record ends the
    scrape of the candidate with [None]: no reset, no second pass. *)
Lemma auction_page_returns_none (a : attempt) (url_data : Candidate.t) (page : soup) :
  get a = Ret tt → access_denied_txt a = None → page_source a = Ret page →
  _extract_detail_data json_loads (cat_reply a) (loc_reply a) (now a) page url_data = None →
  bid_post a = true →
  verdict json_loads a url_data = Return None.
Proof.
  intros Hg Hd Hp He Hb. unfold verdict. by rewrite Hg, Hd, Hp, He, Hb.
Qed.

End Acceptance.

(** The theorem at work: the reply is the raw location, which is not JSON. *)
Lemma malformed_location_reply_rejects_record_witness :
  sample_loads (Py.strip "Las Vegas, Nevada") = None
  ∧ price_present diner_page = true
  ∧ location_present diner_page = true
  ∧ ai_extract_city_and_state sample_loads (_extract_location diner_page)
      (AiContent "Las Vegas, Nevada") = None
  ∧ location_get (ai_extract_city_and_state sample_loads (_extract_location diner_page)
                    (AiContent "Las Vegas, Nevada")) "city" = Raise AttributeError
  ∧ _extract_detail_data sample_loads (AiContent category_reply_text)
      (AiContent "Las Vegas, Nevada") "2025-01-02 00:00:00" diner_page candidate_123
    = None.
Proof.
  split; [reflexivity|]. split; [reflexivity|]. split; [reflexivity|].
  exact (malformed_location_reply_rejects_record sample_loads "Las Vegas, Nevada"
           (AiContent category_reply_text) "2025-01-02 00:00:00" diner_page
           candidate_123 eq_refl).
Defined.

(** The category service meeting the same kind of reply falls back to the
    raw category, as does the location service when its call raises. *)
Example malformed_category_reply_falls_back :
  categorize_listing sample_loads "Restaurant" (AiContent "Restaurants and food")
  = ["Restaurant"].
Proof. reflexivity. Qed.

Example location_service_error_keeps_record :
  _extract_detail_data sample_loads (AiContent category_reply_text) AiRaises
    "2025-01-02 00:00:00" diner_page candidate_123
  = Some {| title := "Downtown Diner"; city := Some ""; state := Some "";
            asking_price := Some (VNum (Q2Qc (inject_Z 500000)));
            gross_revenue := "$1,200,000"; established := None;
            cashflow := "$250,000"; description := "Established diner";
            url := "https://www.bizbuysell.com/new/123/";
            category := ["Restaurants"; "Food"]; original_category := "Restaurant";
            listing_id := "123"; broker_name := "Jo Broker";
            broker_profile := "https://www.bizbuysell.com/broker/jo/";
            broker_number := "702-555-0100";
            scraped_date := "2025-01-02 00:00:00" |}.
Proof. vm_compute. reflexivity. Qed.

(** A pass on the page of the diner whose location reply is not JSON. *)
Definition malformed_reply_attempt : attempt :=
  {| get := Ret tt;
     access_denied_txt := None;
     page_source := Ret diner_page;
     cat_reply := AiContent category_reply_text;
     loc_reply := AiContent "Las Vegas, Nevada";
     now := "2025-01-02 00:00:00";
     bid_post := false;
     reset := Created (Some 1%nat) |}.

(** C5, on the code: the page holds both the asking price and the location,
    yet no record is accepted, because the location reply is not JSON; the
    pass counts as failed, the driver is reset, and after the second pass
    the candidate is dropped. *)
Theorem present_price_and_location_rejected :
  price_present diner_page = true
  ∧ location_present diner_page = true
  ∧ _extract_detail_data sample_loads (AiContent category_reply_text)
      (AiContent "Las Vegas, Nevada") "2025-01-02 00:00:00" diner_page candidate_123
    = None
  ∧ verdict sample_loads malformed_reply_attempt candidate_123 = Continue
  ∧ _scrape_listing_detail_selenium sample_loads (λ _, malformed_reply_attempt)
      candidate_123 live_scraper
    = (None,
       {| driver := Some 1%nat; recent_scrapped_listings_urls := ∅; mongo_col := [];
          log := [ Navigate "https://www.bizbuysell.com/new/123/"; Reset;
                   Navigate "https://www.bizbuysell.com/new/123/"; Reset ] |}).
Proof. repeat split; vm_compute; reflexivity. Qed.

(** ** C7: persistence is an idempotent upsert *)

(** The record scraped again at a later time. *)
Definition rescraped (r : listing) (later : string) : listing :=
  {| title := title r; city := city r; state := state r;
     asking_price := asking_price r; gross_revenue := gross_revenue r;
     established := established r; cashflow := cashflow r;
     description := description r; url := url r; category := category r;
     original_category := original_category r; listing_id := listing_id r;
     broker_name := broker_name r; broker_profile := broker_profile r;
     broker_number := broker_number r; scraped_date := later |}.

Lemma key_of_rescraped r later : key_of (rescraped r later) = key_of r.
Proof. done. Qed.

Lemma matches_own_key r : matches_key (key_of r) r = true.
Proof.
  unfold key_of. destruct (Py.truthy (listing_id r)); cbn; apply String.eqb_refl.
Qed.



(** An operation inserts exactly when the collection grows, by one. *)
Lemma update_one_length k d col :
  length (update_one k d col).1
  = (length col + match (update_one k d col).2 with Upserted => 1 | _ => 0 end)%nat.
Proof.
  induction col as [|doc col IH]; cbn [update_one]; [done|].
  destruct (matches_key k doc).
  - cbn. destruct (bool_decide (doc = d)); cbn; lia.
  - destruct (update_one k d col) as [rest' w]. cbn in *. rewrite IH. lia.
Qed.

Lemma bulk_write_length ops col r :
  (length (bulk_write ops col r).1 + upserted_ids r
   = length col + upserted_ids (bulk_write ops col r).2)%nat.
Proof.
  revert col r. induction ops as [|[k d] ops IH]; intros col r; cbn [bulk_write].
  - cbn. lia.
  - pose proof (update_one_length k d col) as Hl.
    destruct (update_one k d col) as [col' w]. cbn [fst snd] in Hl.
    rewrite <- Nat.add_cancel_r with (p := upserted_ids (tally r w)) in Hl.
    specialize (IH col' (tally r w)). destruct w; cbn [tally upserted_ids] in *; lia.
Qed.

(** The count returned by a write that goes through is the number of
    inserted documents, which is the growth of the collection, plus the
    number of modified documents; the whole batch is one [bulk_write]. *)
Lemma saved_count (details : list listing) (st : scraper) :
  details ≠ [] →
  let result := (bulk_write ((λ d, (key_of d, d)) <$> details) (mongo_col st)
                   {| upserted_ids := 0; modified_count := 0 |}).2 in
  (_save_details_to_mongo WriteCompletes details st).1
    = (upserted_ids result + modified_count result)%nat
  ∧ length (mongo_col (_save_details_to_mongo WriteCompletes details st).2)
    = (length (mongo_col st) + upserted_ids result)%nat
  ∧ log (_save_details_to_mongo WriteCompletes details st).2
    = log st ++ [BulkWrite (length details)].
Proof.
  intros Hne. destruct details as [|d details]; [done|].
  unfold _save_details_to_mongo. cbv zeta.
  pose proof (bulk_write_length ((λ d, (key_of d, d)) <$> (d :: details))
                (mongo_col st) {| upserted_ids := 0; modified_count := 0 |}) as Hl.
  cbn [mongo_col record] in *.
  destruct (bulk_write _ (mongo_col st) _) as [col result]. cbn [fst snd] in *.
  split; [done|]. split; [cbn [mongo_col]; cbn in Hl; lia|].
  cbn [log record]. by rewrite length_fmap.
Qed.

(** The write of a single record. *)
Lemma save_one (d : listing) (st : scraper) :
  _save_details_to_mongo WriteCompletes [d] st
  = (match (update_one (key_of d) d (mongo_col st)).2 with
     | Unchanged => 0%nat
     | _ => 1%nat
     end,
     {| driver := driver st;
        recent_scrapped_listings_urls := recent_scrapped_listings_urls st;
        mongo_col := (update_one (key_of d) d (mongo_col st)).1;
        log := log st ++ [BulkWrite 1] |}).
Proof.
  unfold _save_details_to_mongo.
  cbn [fmap list_fmap bulk_write length mongo_col driver log
       recent_scrapped_listings_urls record].
  destruct (update_one (key_of d) d (mongo_col st)) as [col w].
  by destruct w.
Qed.


(** An operation whose key is held by some document inserts nothing. *)
Lemma update_one_match_keeps_length k d col doc :
  doc ∈ col → matches_key k doc = true →
  length (update_one k d col).1 = length col.
Proof.
  intros Hin Hm. induction col as [|doc' col IH]; [by apply elem_of_nil in Hin|].
  cbn [update_one]. destruct (matches_key k doc') eqn:E; [done|].
  apply elem_of_cons in Hin as [->|Hin]; [congruence|].
  specialize (IH Hin). destruct (update_one k d col). cbn in *. by rewrite IH.
Qed.

Lemma update_one_holds_key d col :
  ∃ doc, doc ∈ (update_one (key_of d) d col).1 ∧ matches_key (key_of d) doc = true.
Proof.
  induction col as [|doc col IH]; cbn [update_one].
  - exists d. split; [apply list_elem_of_here | apply matches_own_key].
  - destruct (matches_key (key_of d) doc) eqn:E.
    + exists d. split; [apply list_elem_of_here | apply matches_own_key].
    + destruct IH as (doc' & Hin & Hm).
      destruct (update_one (key_of d) d col) as [rest' w].
      exists doc'. split; [by apply list_elem_of_further | done].
Qed.

(** Whatever the store holds, persisting a record a second time inserts
    nothing. *)
Lemma second_upsert_never_inserts (st : scraper) (r : listing) (later : string) :
  let first := _save_details_to_mongo WriteCompletes [r] st in
  let second := _save_details_to_mongo WriteCompletes [rescraped r later] first.2 in
  length (mongo_col second.2) = length (mongo_col first.2).
Proof.
  intros first second. subst second first.
  rewrite (save_one r st). cbn [fst snd]. rewrite save_one. cbn [mongo_col fst snd].
  rewrite key_of_rescraped.
  destruct (update_one_holds_key r (mongo_col st)) as (doc & Hin & Hm).
  by apply (update_one_match_keeps_length _ _ _ doc).
Qed.

(** A write that raises counts zero, and changes no document when the
    store has applied nothing. *)
Lemma rejected_write_counts_zero (applied : list bool) (details : list listing)
    (st : scraper) :
  (_save_details_to_mongo (WriteRaises applied) details st).1 = 0%nat
  ∧ mongo_col (_save_details_to_mongo (WriteRaises []) details st).2 = mongo_col st.
Proof.
  destruct details as [|d details]; [done|]. unfold _save_details_to_mongo.
  cbv zeta. split; [by destruct (bulk_write _ _ _)|done].
Qed.


(** ** C9: the value returned by the worker pool *)

(** The scraper as [process_urls_directly] leaves it before the pool
    starts: the set of recent addresses is emptied. *)
Definition cleared (st : scraper) : scraper :=
  {| driver := driver st;
     recent_scrapped_listings_urls := ∅;
     mongo_col := mongo_col st;
     log := log st |}.

(** C9: the public entry point returns the integer [0] when no candidate
    yields a record, and the list of the records otherwise; the list is
    never empty. *)
Theorem pool_returns_zero_or_records (json_loads : string → option json)
    (envs : nat → nat → attempt) (write : write_reply)
    (urls_to_process : list Candidate.t) (st : scraper) :
  (process_urls_directly json_loads envs write urls_to_process st).1
  = match (collect json_loads envs 0 urls_to_process (cleared st)).1 with
    | [] => PyInt 0
    | d :: ds => PyList (d :: ds)
    end
  ∧ (process_urls_directly json_loads envs write urls_to_process st).1
    ≠ PyList [].
Proof.
  assert (H : (process_urls_directly json_loads envs write urls_to_process st).1
              = match (collect json_loads envs 0 urls_to_process (cleared st)).1 with
                | [] => PyInt 0
                | d :: ds => PyList (d :: ds)
                end).
  { unfold process_urls_directly, _process_urls_threaded. fold (cleared st).
    destruct (collect json_loads envs 0 urls_to_process (cleared st))
      as [[|d ds] st']; [done|].
    by destruct (_save_details_to_mongo write (d :: ds) st'). }
  split; [exact H|]. rewrite H.
  by destruct (collect json_loads envs 0 urls_to_process (cleared st)).1.
Qed.

(** No candidate at all is one way to have no record. *)
Lemma no_candidate_returns_zero json_loads envs write st :
  (process_urls_directly json_loads envs write [] st).1 = PyInt 0.
Proof. done. Qed.

(** Two candidates that both meet the access-denied page on every pass:
    the pool returns [0], and nothing is written to the store. *)
Definition candidate_456 : Candidate.t :=
  {| Candidate.title := Some "Corner Shop";
     Candidate.url := Some "https://www.bizbuysell.com/new/456/";
     Candidate.listing_id := Some "456" |}.

Example all_blocked_returns_zero :
  process_urls_directly sample_loads
    (λ _ _, blocked_attempt (Created (Some 1%nat))) WriteCompletes
    [candidate_123; candidate_456] live_scraper
  = (PyInt 0,
     {| driver := Some 1%nat; recent_scrapped_listings_urls := ∅; mongo_col := [];
        log := [ Navigate "https://www.bizbuysell.com/new/123/"; Reset;
                 Navigate "https://www.bizbuysell.com/new/123/"; Reset;
                 Navigate "https://www.bizbuysell.com/new/456/"; Reset;
                 Navigate "https://www.bizbuysell.com/new/456/"; Reset ] |}).
Proof. vm_compute. reflexivity. Qed.

(** One candidate that succeeds: the pool returns the list and the record
    is in the store. *)
Example one_success_returns_list :
  process_urls_directly sample_loads (λ _ _, good_attempt) WriteCompletes
    [candidate_123] live_scraper
  = (PyList [diner_record],
     {| driver := Some 0%nat; recent_scrapped_listings_urls := ∅;
        mongo_col := [diner_record];
        log := [ Navigate "https://www.bizbuysell.com/new/123/"; BulkWrite 1 ] |}).
Proof. vm_compute. reflexivity. Qed.

(** * Further properties of the code *)

(** ** Texts *)

(** [c in s] *)
Fixpoint occurs (c : ascii) (s : string) : bool :=
  match s with
  | EmptyString => false
  | String d s' => Ascii.eqb c d || occurs c s'
  end.

Lemma occurs_remove_char c s : occurs c (Py.remove_char c s) = false.
Proof.
  induction s as [|d s IH]; [done|]. cbn [Py.remove_char].
  destruct (Ascii.eqb c d) eqn:E; [done|]. cbn [occurs]. by rewrite E, IH.
Qed.


Lemma occurs_lstrip d s : occurs d (Py.lstrip s) = true → occurs d s = true.
Proof.
  induction s as [|c s IH]; [done|]. cbn [Py.lstrip].
  destruct (Py.isspace c); [|done].
  intros H. cbn [occurs]. rewrite (IH H). apply orb_true_r.
Qed.

Lemma occurs_rstrip d s : occurs d (Py.rstrip s) = true → occurs d s = true.
Proof.
  induction s as [|c s IH]; [done|]. cbn [Py.rstrip].
  destruct (Py.rstrip s) as [|e r].
  - destruct (Py.isspace c); [done|]. cbn [occurs].
    destruct (Ascii.eqb d c); [done|]. done.
  - cbn [occurs] in *. destruct (Ascii.eqb d c); [done|]. exact IH.
Qed.

Lemma occurs_strip d s : occurs d (Py.strip s) = true → occurs d s = true.
Proof. intros H. by apply occurs_lstrip, occurs_rstrip. Qed.

(** The pieces of a split hold no separator and nothing new. *)
Lemma split_on_pieces c s p :
  p ∈ Py.split_on c s →
  occurs c p = false ∧ ∀ d, occurs d p = true → occurs d s = true.
Proof.
  revert p. induction s as [|e s IH]; intros p; cbn [Py.split_on].
  - intros Hp. apply list_elem_of_singleton in Hp as ->. done.
  - destruct (Ascii.eqb c e) eqn:E.
    + intros Hp. apply elem_of_cons in Hp as [->|Hp]; [done|].
      destruct (IH p Hp) as [H1 H2]. split; [done|].
      intros d Hd. cbn [occurs]. rewrite (H2 d Hd). apply orb_true_r.
    + destruct (Py.split_on c s) as [|q qs] eqn:Hs.
      * intros Hp. apply list_elem_of_singleton in Hp as ->.
        cbn [occurs]. rewrite E. split; [done|].
        intros d Hd. cbn [occurs] in Hd. rewrite orb_false_r in Hd.
        cbn [occurs]. by rewrite Hd.
      * intros Hp. apply elem_of_cons in Hp as [->|Hp].
        -- destruct (IH q (list_elem_of_here _ _)) as [H1 H2].
           cbn [occurs]. rewrite E, H1. split; [done|].
           intros d. destruct (Ascii.eqb d e); [done|]. apply H2.
        -- destruct (IH p (list_elem_of_further _ _ _ Hp)) as [H1 H2].
           split; [done|]. intros d Hd. cbn [occurs]. rewrite (H2 d Hd).
           apply orb_true_r.
Qed.

(** A stripped text has no white space at either end: stripping it again
    changes nothing. *)
Lemma lstrip_head s :
  Py.lstrip s = EmptyString
  ∨ ∃ c r, Py.lstrip s = String c r ∧ Py.isspace c = false.
Proof.
  induction s as [|c s IH]; [by left|]. cbn [Py.lstrip].
  destruct (Py.isspace c) eqn:E; [done|]. right. eauto.
Qed.

Lemma rstrip_idem s : Py.rstrip (Py.rstrip s) = Py.rstrip s.
Proof.
  induction s as [|c s IH]; [done|]. cbn [Py.rstrip].
  destruct (Py.rstrip s) as [|d r] eqn:Hr.
  - destruct (Py.isspace c) eqn:E; [done|]. cbn [Py.rstrip]. by rewrite E.
  - cbn [Py.rstrip]. cbn [Py.rstrip] in IH. by rewrite IH.
Qed.

Lemma rstrip_keeps_head c r :
  Py.isspace c = false → ∃ r', Py.rstrip (String c r) = String c r'.
Proof.
  intros E. cbn [Py.rstrip]. destruct (Py.rstrip r); [rewrite E|]; eauto.
Qed.

Lemma strip_idem s : Py.strip (Py.strip s) = Py.strip s.
Proof.
  unfold Py.strip. destruct (lstrip_head s) as [->|(c & r & -> & E)]; [done|].
  destruct (rstrip_keeps_head c r E) as [r' Hr]. rewrite Hr.
  cbn [Py.lstrip]. rewrite E, <- Hr. apply rstrip_idem.
Qed.

(** ** The notifier: normalisation of the preferences *)

Section Normalisation.

Variable py_float : string → option Qc.
Variable py_str : Qc → string.

(** X1: every item that [_normalize_list_field] returns is non-empty, holds no
    comma and no no-break space, and has no white space at either end. *)
Theorem normalize_list_field_items (field_value : option pyval) (item : string) :
  item ∈ _normalize_list_field py_str field_value →
  item ≠ EmptyString
  ∧ Py.strip item = item
  ∧ occurs "," item = false
  ∧ occurs (ascii_of_N 160) item = false.
Proof.
  unfold _normalize_list_field. destruct field_value as [v|]; [|by intros ?%elem_of_nil].
  destruct (pyval_truthy v); [|by intros ?%elem_of_nil].
  intros Hin. apply list_elem_of_fmap in Hin as (piece & -> & Hp).
  apply list_elem_of_In, filter_In in Hp as [Hp Ht].
  apply list_elem_of_In, split_on_pieces in Hp as [Hc Hsub].
  apply andb_true_iff in Ht as [_ Ht].
  split; [by destruct (Py.strip piece)|]. split; [apply strip_idem|]. split.
  - destruct (occurs "," (Py.strip piece)) eqn:E; [|done].
    apply occurs_strip in E. congruence.
  - destruct (occurs (ascii_of_N 160) (Py.strip piece)) eqn:E; [|done].
    apply occurs_strip, Hsub in E. by rewrite occurs_remove_char in E.
Qed.

(** A missing or falsy field gives no item. *)
Lemma normalize_list_field_empty :
  _normalize_list_field py_str None = []
  ∧ _normalize_list_field py_str (Some (VStr EmptyString)) = [].
Proof. done. Qed.


End Normalisation.

(** The theorem at work on a field as the audience form fills it. *)
Lemma normalize_list_field_items_witness :
  "nevada" ∈ _normalize_list_field (λ _, "") (Some (VStr " Utah ,, nevada "))
  ∧ "nevada" ≠ EmptyString
  ∧ Py.strip "nevada" = "nevada"
  ∧ occurs "," "nevada" = false
  ∧ occurs (ascii_of_N 160) "nevada" = false.
Proof.
  assert (Hin : "nevada" ∈ _normalize_list_field (λ _, "")
                             (Some (VStr " Utah ,, nevada "))).
  { vm_compute. apply list_elem_of_further, list_elem_of_here. }
  split; [exact Hin|].
  exact (normalize_list_field_items (λ _, "") (Some (VStr " Utah ,, nevada "))
           "nevada" Hin).
Defined.

Example normalize_price_of_text :
  _normalize_price
    (λ s, if String.eqb s "1200000" then Some (Q2Qc (inject_Z 1200000)) else None)
    (λ _, "") (Some (VStr " $1,200,000 "))
  = Some (Q2Qc (inject_Z 1200000)).
Proof. reflexivity. Qed.

(** ** The notifier: matches and groups *)

Section DictMore.
Context {V : Type}.
Implicit Types (d : list (string * V)) (k : string) (v : V).

Lemma elem_of_set k v d k' v' :
  (k', v') ∈ Dict.set k v d → (k', v') = (k, v) ∨ (k', v') ∈ d.
Proof.
  induction d as [|[k0 v0] d IH]; cbn [Dict.set].
  - intros ?%list_elem_of_singleton. by left.
  - destruct (String.eqb k k0).
    + intros [->|H]%elem_of_cons; [by left|]. right. by apply list_elem_of_further.
    + intros [->|H]%elem_of_cons; [right; apply list_elem_of_here|].
      destruct (IH H) as [?|?]; [by left|]. right. by apply list_elem_of_further.
Qed.

Lemma keys_set_in k v d :
  k ∈ Dict.keys d → Dict.keys (Dict.set k v d) = Dict.keys d.
Proof.
  unfold Dict.keys. induction d as [|[k0 v0] d IH]; cbn [Dict.set fmap list_fmap fst].
  - by intros ?%elem_of_nil.
  - destruct (String.eqb k k0) eqn:E.
    + apply String.eqb_eq in E as ->. done.
    + intros [->|H]%elem_of_cons; [by rewrite String.eqb_refl in E|].
      cbn [fmap list_fmap fst]. f_equal. by apply IH.
Qed.

Lemma keys_set_new k v d :
  k ∉ Dict.keys d → Dict.keys (Dict.set k v d) = Dict.keys d ++ [k].
Proof.
  unfold Dict.keys. induction d as [|[k0 v0] d IH]; cbn [Dict.set fmap list_fmap fst app].
  - done.
  - intros Hk. apply not_elem_of_cons in Hk as [Hne Hk].
    apply String.eqb_neq in Hne as ->. cbn [fmap list_fmap fst]. f_equal. by apply IH.
Qed.

Lemma keys_set_NoDup k v d : NoDup (Dict.keys d) → NoDup (Dict.keys (Dict.set k v d)).
Proof.
  intros Hd. destruct (decide (k ∈ Dict.keys d)) as [Hin|Hout].
  - by rewrite keys_set_in.
  - rewrite keys_set_new by done. apply NoDup_app. split; [done|].
    split; [|apply NoDup_singleton].
    intros x Hx ?%list_elem_of_singleton. by subst.
Qed.

Lemma get_None_keys k d : Dict.get k d = None ↔ k ∉ Dict.keys d.
Proof.
  unfold Dict.keys. induction d as [|[k0 v0] d IH]; cbn [Dict.get fmap list_fmap fst].
  - split; [intros _ ?%elem_of_nil; done | done].
  - destruct (String.eqb k k0) eqn:E.
    + apply String.eqb_eq in E as ->. split; [done|].
      intros H. exfalso. apply H, list_elem_of_here.
    + apply String.eqb_neq in E. rewrite IH. rewrite not_elem_of_cons. tauto.
Qed.

Lemma get_Some_elem k v d : Dict.get k d = Some v → (k, v) ∈ d.
Proof.
  induction d as [|[k0 v0] d IH]; cbn [Dict.get]; [done|].
  destruct (String.eqb k k0) eqn:E.
  - apply String.eqb_eq in E as ->. intros [= ->]. apply list_elem_of_here.
  - intros H. by apply list_elem_of_further, IH.
Qed.
End DictMore.

Section Matches.

Variable py_float : string → option Qc.
Variable py_str : Qc → string.

Lemma matched_listings_sublist p listings found :
  matched_listings py_float py_str p listings = Ret found → found `sublist_of` listings.
Proof.
  revert found. induction listings as [|l rest IH]; intros found; cbn [matched_listings].
  - intros [= <-]. constructor.
  - destruct (matches_preferences py_float py_str p l) as [b|e]; [|done].
    destruct (matched_listings py_float py_str p rest) as [t|e]; [|done].
    cbn. intros [= <-]. specialize (IH t eq_refl).
    destruct b; [by apply sublist_skip | by apply sublist_cons].
Qed.

(** What holds of every entry of the matches. *)
Definition sound_entry (subs : list subscriber) (listings : list listing)
    (entry : string * list listing) : Prop :=
  entry.2 ≠ []
  ∧ entry.2 `sublist_of` listings
  ∧ ∃ sub, sub ∈ subs ∧ email_address sub = Some entry.1 ∧ skipped sub = false.

Lemma match_subscriber_sound subs listings matches sub matches' :
  sub ∈ subs →
  NoDup (Dict.keys matches) → Forall (sound_entry subs listings) matches →
  match_subscriber py_float py_str listings matches sub = Ret matches' →
  NoDup (Dict.keys matches') ∧ Forall (sound_entry subs listings) matches'.
Proof.
  intros Hsub Hnd Hall. unfold match_subscriber.
  destruct (email_address sub) as [email|] eqn:He; [|by intros [= <-]].
  destruct (Py.truthy email) eqn:Ht; cbn [negb]; [|by intros [= <-]].
  case_bool_decide as Hmf; [by intros [= <-]|].
  destruct (matched_listings py_float py_str _ listings) as [found|e] eqn:Hf; [|done].
  cbn. destruct found as [|l found]; [by intros [= <-]|]. intros [= <-].
  split; [by apply keys_set_NoDup|].
  apply Forall_forall. intros [e ml] Hin.
  apply elem_of_set in Hin as [[= -> ->]|Hin].
  - split; [done|]. split; [by eapply matched_listings_sublist|].
    exists sub. split; [done|]. split; [done|].
    unfold skipped. rewrite He, Ht. cbn [negb orb]. by apply bool_decide_eq_false.
  - by apply (proj1 (Forall_forall _ _) Hall).
Qed.

Lemma match_loop_sound subs listings rest matches matches' :
  rest ⊆ subs →
  NoDup (Dict.keys matches) → Forall (sound_entry subs listings) matches →
  match_loop py_float py_str listings rest matches = Ret matches' →
  NoDup (Dict.keys matches') ∧ Forall (sound_entry subs listings) matches'.
Proof.
  revert matches. induction rest as [|sub rest IH]; intros matches Hsub Hnd Hall;
    cbn [match_loop].
  - by intros [= <-].
  - destruct (match_subscriber py_float py_str listings matches sub) as [m|e] eqn:Hm;
      [|done].
    cbn. intros Hloop.
    destruct (match_subscriber_sound subs listings matches sub m) as [Hnd' Hall'];
      [apply Hsub, list_elem_of_here|done..|].
    apply (IH m); [|done..]. intros x Hx. by apply Hsub, list_elem_of_further.
Qed.

(** X3: the matches returned by [match_subscribers_to_listings]: one entry per
    address; each entry belongs to a subscriber that passed the two guards,
    and its listings are a non-empty part of the batch, in the order of the
    batch. *)
Theorem matches_are_sound (subs : list subscriber) (listings : list listing)
    (matches : list (string * list listing)) :
  match_subscribers_to_listings py_float py_str subs listings = Ret matches →
  NoDup (Dict.keys matches)
  ∧ ∀ email found, (email, found) ∈ matches →
      found ≠ []
      ∧ found `sublist_of` listings
      ∧ ∃ sub, sub ∈ subs ∧ email_address sub = Some email ∧ skipped sub = false.
Proof.
  intros Hm.
  destruct (match_loop_sound subs listings subs [] matches) as [Hnd Hall];
    [done|apply NoDup_nil_2|apply Forall_nil_2|exact Hm|].
  split; [done|]. intros email found Hin.
  exact (proj1 (Forall_forall _ _) Hall (email, found) Hin).
Qed.

Lemma match_loop_empty_batch subs matches :
  match_loop py_float py_str [] subs matches = Ret matches.
Proof.
  revert matches. induction subs as [|sub subs IH]; intros matches; cbn [match_loop]; [done|].
  assert (match_subscriber py_float py_str [] matches sub = Ret matches) as ->; [|apply IH].
  unfold match_subscriber. destruct (email_address sub); [|done].
  destruct (negb _); [done|]. by case_bool_decide.
Qed.

Lemma notify_fetched_empty_batch create_segment send_campaign subs :
  notify_fetched py_float py_str create_segment send_campaign subs []
  = Ret ({| matched_subscribers := 0; emails_sent := 0; groups_created := 0 |}, []).
Proof.
  unfold notify_fetched, match_subscribers_to_listings.
  by rewrite match_loop_empty_batch.
Qed.

(** X4: with an empty batch [notify] matches nobody and sends no campaign,
    whatever the subscribers and the platform: it returns the summary of
    zeros, unless the key or the list is missing or the fetch of the
    subscribers raises, and then it raises before anything is sent. *)
Theorem empty_batch_notifies_nobody
    (create_segment : list string → string → option Z)
    (send_campaign : Z → list listing → list string → bool)
    (self : notifier) (fetch : fetch_reply) (list_id : option string) :
  notify py_float py_str create_segment send_campaign self fetch [] list_id
  = if truthy_text (api_key self)
       && (truthy_text list_id || truthy_text (self_list_id self))
    then match fetch with
         | FetchRaises => Raise OtherException
         | _ => Ret ({| matched_subscribers := 0; emails_sent := 0;
                        groups_created := 0 |}, [])
         end
    else Raise RuntimeError.
Proof.
  unfold notify, notify_guards.
  destruct (truthy_text (api_key self)); cbn [negb andb]; [|done].
  cbv zeta.
  assert (truthy_text (if truthy_text list_id then list_id else self_list_id self)
          = truthy_text list_id || truthy_text (self_list_id self)) as ->.
  { by destruct (truthy_text list_id) eqn:E. }
  destruct (truthy_text list_id || truthy_text (self_list_id self)); cbn [negb];
    [|done].
  destruct fetch as [subs| |]; cbn [fetch_subscribers mbind exc_bind]; [| |done];
    apply notify_fetched_empty_batch.
Qed.

End Matches.

(** The theorem at work on the Nevada example. *)
Lemma matches_are_sound_witness :
  match_subscribers_to_listings (λ _, None) (λ _, "")
    [nevada_subscriber; blank_subscriber; open_subscriber] [nevada_listing]
  = Ret [("open@example.com", [nevada_listing])]
  ∧ NoDup (Dict.keys [("open@example.com", [nevada_listing])])
  ∧ ∀ email found, (email, found) ∈ [("open@example.com", [nevada_listing])] →
      found ≠ []
      ∧ found `sublist_of` [nevada_listing]
      ∧ ∃ sub, sub ∈ [nevada_subscriber; blank_subscriber; open_subscriber]
               ∧ email_address sub = Some email ∧ skipped sub = false.
Proof.
  split; [reflexivity|].
  exact (matches_are_sound (λ _, None) (λ _, "")
           [nevada_subscriber; blank_subscriber; open_subscriber] [nevada_listing]
           [("open@example.com", [nevada_listing])] eq_refl).
Defined.

Lemma keys_app {V} (d1 d2 : list (string * V)) :
  Dict.keys (d1 ++ d2) = Dict.keys d1 ++ Dict.keys d2.
Proof. unfold Dict.keys. apply fmap_app. Qed.

(** The e-mails of all the groups, group after group. *)
Definition grouped_emails (groups : groups_t) : list string :=
  concat ((λ g, g.2.1) <$> groups).

Lemma grouped_emails_app (g1 g2 : groups_t) :
  grouped_emails (g1 ++ g2) = grouped_emails g1 ++ grouped_emails g2.
Proof. unfold grouped_emails. by rewrite fmap_app, concat_app. Qed.

Lemma grouped_emails_set (groups : groups_t) h emails ls email :
  Dict.get h groups = Some (emails, ls) →
  grouped_emails (Dict.set h (emails ++ [email], ls) groups)
  ≡ₚ email :: grouped_emails groups.
Proof.
  unfold grouped_emails.
  induction groups as [|[h0 [es0 ls0]] groups IH]; cbn [Dict.get Dict.set]; [done|].
  destruct (String.eqb h h0) eqn:E.
  - intros [= -> ->]. cbn. rewrite <- app_assoc. cbn.
    by rewrite <- Permutation_middle.
  - intros Hget. cbn. rewrite (IH Hget). by rewrite <- Permutation_middle.
Qed.

(** What holds of every group. *)
Definition sound_group (matches : list (string * list listing))
    (group : string * (list string * list listing)) : Prop :=
  let '(h, (emails, ls)) := group in
  h = _create_listings_hash ls
  ∧ (∃ first others, emails = first :: others ∧ (first, ls) ∈ matches)
  ∧ ∀ email, email ∈ emails →
      ∃ found, (email, found) ∈ matches ∧ _create_listings_hash found = h.

Lemma sound_group_mono matches matches' group :
  matches ⊆ matches' → sound_group matches group → sound_group matches' group.
Proof.
  intros Hsub. destruct group as [h [emails ls]].
  intros (Hh & (first & others & -> & Hf) & Hall). split; [done|]. split.
  - exists first, others. split; [done|]. by apply Hsub.
  - intros email He. destruct (Hall email He) as (found & Hin & Hhash).
    exists found. split; [by apply Hsub | done].
Qed.

Lemma group_add_sound (done_ : list (string * list listing)) (groups : groups_t)
    (entry : string * list listing) :
  NoDup (Dict.keys groups) → Forall (sound_group done_) groups →
  grouped_emails groups ≡ₚ Dict.keys done_ →
  NoDup (Dict.keys (group_add groups entry))
  ∧ Forall (sound_group (done_ ++ [entry])) (group_add groups entry)
  ∧ grouped_emails (group_add groups entry) ≡ₚ Dict.keys (done_ ++ [entry]).
Proof.
  intros Hnd Hall Hperm. destruct entry as [email found]. unfold group_add.
  assert (Hmono : Forall (sound_group (done_ ++ [(email, found)])) groups).
  { eapply Forall_impl; [exact Hall|]. intros g. apply sound_group_mono.
    intros x Hx. apply elem_of_app. by left. }
  assert (Hlast : (email, found) ∈ done_ ++ [(email, found)]).
  { apply elem_of_app. right. apply list_elem_of_here. }
  rewrite (keys_app done_ [(email, found)]).
  change (Dict.keys [(email, found)]) with [email].
  destruct (Dict.get (_create_listings_hash found) groups) as [[emails ls]|] eqn:Hget.
  - split; [by apply keys_set_NoDup|]. split.
    + apply Forall_forall. intros [h [es ls']] Hin.
      apply elem_of_set in Hin as [[= -> -> ->]|Hin].
      * apply get_Some_elem in Hget.
        pose proof (proj1 (Forall_forall _ _) Hmono _ Hget) as (Hh & (f & o & -> & Hf) & Hm).
        split; [done|]. split; [by exists f, (o ++ [email])|].
        intros e [He|He%list_elem_of_singleton]%elem_of_app; [by apply Hm|].
        subst e. by exists found.
      * by apply (proj1 (Forall_forall _ _) Hmono).
    + rewrite (grouped_emails_set groups _ emails ls email Hget), Hperm.
      by rewrite <- Permutation_cons_append.
  - split; [|split].
    + apply get_None_keys in Hget. rewrite keys_app.
      apply NoDup_app. split; [done|]. split; [|apply NoDup_singleton].
      intros x Hx ?%list_elem_of_singleton. by subst.
    + apply Forall_app. split; [done|]. apply Forall_singleton.
      split; [done|]. split; [by exists email, []|].
      intros e ?%list_elem_of_singleton. subst e. by exists found.
    + rewrite grouped_emails_app, Hperm. unfold grouped_emails. cbn. done.
Qed.

Lemma fold_group_add_sound (todo done_ : list (string * list listing)) (groups : groups_t) :
  NoDup (Dict.keys groups) → Forall (sound_group done_) groups →
  grouped_emails groups ≡ₚ Dict.keys done_ →
  NoDup (Dict.keys (fold_left group_add todo groups))
  ∧ Forall (sound_group (done_ ++ todo)) (fold_left group_add todo groups)
  ∧ grouped_emails (fold_left group_add todo groups) ≡ₚ Dict.keys (done_ ++ todo).
Proof.
  revert done_ groups. induction todo as [|entry todo IH]; intros done_ groups Hnd Hall Hp.
  - cbn [fold_left]. by rewrite app_nil_r.
  - cbn [fold_left].
    destruct (group_add_sound done_ groups entry Hnd Hall Hp) as (Hnd' & Hall' & Hp').
    specialize (IH (done_ ++ [entry]) _ Hnd' Hall' Hp').
    by rewrite <- app_assoc in IH.
Qed.

(** X5: [group_subscribers_by_matches] splits the matched subscribers into
    groups with distinct keys: every subscriber is a member of one group
    (the members of all the groups are the keys of the matches, each once);
    the key of a group is the hash of the match list of each of its members;
    and the listings that the group carries, hence the content of its
    campaign, are the match list of its first member. *)
Theorem groups_partition_the_matches (matches : list (string * list listing)) :
  NoDup (Dict.keys (group_subscribers_by_matches matches))
  ∧ grouped_emails (group_subscribers_by_matches matches) ≡ₚ Dict.keys matches
  ∧ ∀ h emails ls, (h, (emails, ls)) ∈ group_subscribers_by_matches matches →
      h = _create_listings_hash ls
      ∧ (∃ first others, emails = first :: others ∧ (first, ls) ∈ matches)
      ∧ ∀ email, email ∈ emails →
          ∃ found, (email, found) ∈ matches ∧ _create_listings_hash found = h.
Proof.
  destruct (fold_group_add_sound matches [] []) as (Hnd & Hall & Hp);
    [apply NoDup_nil_2 | apply Forall_nil_2 | done |].
  split; [exact Hnd|]. split; [exact Hp|].
  intros h emails ls Hin.
  exact (proj1 (Forall_forall _ _) Hall (h, (emails, ls)) Hin).
Qed.

(** ** The notifier: the hash *)

Lemma hex_length bs : String.length (MD5.hex bs) = (2 * length bs)%nat.
Proof. induction bs as [|b bs IH]; cbn [MD5.hex String.length length]; [done|]. lia. Qed.

Lemma take_chars_length n s :
  (n ≤ String.length s)%nat → String.length (Py.take_chars n s) = n.
Proof.
  revert s. induction n as [|n IH]; intros [|c s]; cbn [Py.take_chars String.length];
    try done; try lia.
  intros H. f_equal. apply IH. lia.
Qed.

(** X6: the key of a group always has eight characters. *)
Theorem listings_hash_length (listings : list listing) :
  String.length (_create_listings_hash listings) = 8%nat.
Proof.
  unfold _create_listings_hash. apply take_chars_length.
  unfold MD5.hexdigest. rewrite hex_length. unfold MD5.digest.
  rewrite !length_app. cbn [MD5.bytes_of length]. lia.
Qed.

(** ** The notifier: dispatch *)

Section Dispatch.

Variable py_float : string → option Qc.
Variable py_str : Qc → string.
Variable create_segment : list string → string → option Z.
Variable send_campaign : Z → list listing → list string → bool.

(** The campaign that a group gives rise to, when its segment is created
    with a truthy identifier and its campaign is sent. *)
Definition delivered (group : string * (list string * list listing)) : option campaign :=
  let '(listings_hash, (group_emails, group_listings)) := group in
  match create_segment group_emails listings_hash with
  | None => None
  | Some sid =>
      if sid =? 0 then None
      else if send_campaign sid group_listings group_emails
      then Some {| segment_id := sid; recipients := group_emails;
                   content := group_listings |}
      else None
  end.

Lemma dispatch_delivered groups sent processed log :
  dispatch create_segment send_campaign groups sent processed log
  = ((sent + sum_list (length ∘ recipients <$> omap delivered groups))%nat,
     (processed + length (omap delivered groups))%nat,
     log ++ omap delivered groups).
Proof.
  revert sent processed log.
  induction groups as [|[h [es ls]] groups IH]; intros sent processed log.
  - cbn. by rewrite !Nat.add_0_r, app_nil_r.
  - cbn [dispatch omap list_omap delivered].
    destruct (create_segment es h) as [sid|]; [|apply IH].
    destruct (sid =? 0); [apply IH|].
    destruct (send_campaign sid ls es); [|apply IH].
    rewrite IH. cbn. rewrite <- app_assoc. cbn. f_equal. f_equal; lia.
Qed.

Lemma delivered_bound (groups : groups_t) :
  (sum_list (length ∘ recipients <$> omap delivered groups)
   ≤ length (grouped_emails groups))%nat.
Proof.
  unfold grouped_emails.
  induction groups as [|[h [es ls]] groups IH]; [done|].
  cbn [omap list_omap delivered fmap list_fmap concat]. rewrite length_app.
  destruct (create_segment es h) as [sid|]; [|cbn; lia].
  destruct (sid =? 0); [cbn; lia|].
  destruct (send_campaign sid ls es); cbn; lia.
Qed.

(** X7: the summary of [notify] and the campaigns that went out: each group is
    judged on its own, so the campaigns sent are exactly those of the
    groups whose segment and campaign succeed, in the order of the groups,
    whatever happens to the other groups; [groups_created] counts these
    campaigns, [emails_sent] their recipients, and [emails_sent] never
    exceeds [matched_subscribers]. *)
Theorem notify_accounting (self : notifier) (fetch : fetch_reply)
    (listings : list listing) (list_id : option string)
    (result : summary) (log : list campaign) :
  notify py_float py_str create_segment send_campaign self fetch listings list_id
  = Ret (result, log) →
  ∃ subs matches,
    fetch_subscribers fetch = Ret subs
    ∧ match_subscribers_to_listings py_float py_str subs listings = Ret matches
    ∧ log = omap delivered (group_subscribers_by_matches matches)
    ∧ matched_subscribers result = length matches
    ∧ groups_created result = length log
    ∧ emails_sent result = sum_list (length ∘ recipients <$> log)
    ∧ (emails_sent result ≤ matched_subscribers result)%nat.
Proof.
  unfold notify, notify_guards. destruct (negb _); [done|]. cbv zeta.
  destruct (negb _); [done|].
  destruct (fetch_subscribers fetch) as [subs|e]; cbn [mbind exc_bind]; [|done].
  unfold notify_fetched.
  destruct (match_subscribers_to_listings py_float py_str subs listings)
    as [matches|e] eqn:Hm; [|done].
  cbn. intros Hn. exists subs, matches. split; [done|]. split; [exact Hm|].
  destruct matches as [|entry matches]; [by simplify_eq|].
  rewrite dispatch_delivered in Hn. cbn [app Nat.add] in Hn. simplify_eq.
  cbn [matched_subscribers groups_created emails_sent].
  split; [done|]. split; [done|]. split; [done|]. split; [done|].
  etrans; [apply delivered_bound|].
  destruct (fold_group_add_sound (entry :: matches) [] []) as (_ & _ & Hp);
    [apply NoDup_nil_2 | apply Forall_nil_2 | done |].
  unfold group_subscribers_by_matches. rewrite Hp. unfold Dict.keys. by rewrite length_fmap.
Qed.

End Dispatch.

(** The theorem at work: three groups, the middle one of which cannot get
    its segment; the two others receive their campaigns. *)
Definition segment_unless_utah (emails : list string) (h : string) : option Z :=
  if bool_decide ("utah@example.com" ∈ emails) then None else Some 7.

Definition utah_subscriber : subscriber :=
  {| email_address := Some "utah@example.com";
     merge_fields := Some (<["INDUSTRIES" := VStr "Retail"]> ∅) |}.

Definition food_subscriber : subscriber :=
  {| email_address := Some "food@example.com";
     merge_fields := Some (<["INDUSTRIES" := VStr "food"]> ∅) |}.

Lemma notify_accounting_witness :
  notify (λ _, None) (λ _, "") segment_unless_utah (λ _ _ _, true)
    configured_notifier
    (Members [open_subscriber; utah_subscriber; food_subscriber])
    [nevada_listing; listing_2116453] (Some "7881b0503b")
  = Ret ({| matched_subscribers := 3; emails_sent := 2; groups_created := 2 |},
         [ {| segment_id := 7; recipients := ["open@example.com"];
              content := [nevada_listing; listing_2116453] |};
           {| segment_id := 7; recipients := ["food@example.com"];
              content := [nevada_listing] |} ])
  ∧ ∃ subs matches,
      fetch_subscribers (Members [open_subscriber; utah_subscriber; food_subscriber])
      = Ret subs
      ∧ match_subscribers_to_listings (λ _, None) (λ _, "") subs
          [nevada_listing; listing_2116453] = Ret matches
      ∧ [ {| segment_id := 7; recipients := ["open@example.com"];
             content := [nevada_listing; listing_2116453] |};
          {| segment_id := 7; recipients := ["food@example.com"];
             content := [nevada_listing] |} ]
        = omap (delivered segment_unless_utah (λ _ _ _, true))
            (group_subscribers_by_matches matches)
      ∧ matched_subscribers
          {| matched_subscribers := 3; emails_sent := 2; groups_created := 2 |}
        = length matches
      ∧ groups_created
          {| matched_subscribers := 3; emails_sent := 2; groups_created := 2 |}
        = length [ {| segment_id := 7; recipients := ["open@example.com"];
                      content := [nevada_listing; listing_2116453] |};
                   {| segment_id := 7; recipients := ["food@example.com"];
                      content := [nevada_listing] |} ]
      ∧ emails_sent
          {| matched_subscribers := 3; emails_sent := 2; groups_created := 2 |}
        = sum_list (length ∘ recipients <$>
            [ {| segment_id := 7; recipients := ["open@example.com"];
                 content := [nevada_listing; listing_2116453] |};
              {| segment_id := 7; recipients := ["food@example.com"];
                 content := [nevada_listing] |} ])
      ∧ (emails_sent
           {| matched_subscribers := 3; emails_sent := 2; groups_created := 2 |}
         ≤ matched_subscribers
             {| matched_subscribers := 3; emails_sent := 2; groups_created := 2 |})%nat.
Proof.
  assert (Hn : notify (λ _, None) (λ _, "") segment_unless_utah (λ _ _ _, true)
                 configured_notifier
                 (Members [open_subscriber; utah_subscriber; food_subscriber])
                 [nevada_listing; listing_2116453] (Some "7881b0503b")
               = Ret ({| matched_subscribers := 3; emails_sent := 2;
                         groups_created := 2 |},
                      [ {| segment_id := 7; recipients := ["open@example.com"];
                           content := [nevada_listing; listing_2116453] |};
                        {| segment_id := 7; recipients := ["food@example.com"];
                           content := [nevada_listing] |} ])).
  { vm_compute. reflexivity. }
  split; [exact Hn|].
  exact (notify_accounting (λ _, None) (λ _, "") segment_unless_utah (λ _ _ _, true)
           _ _ _ _ _ _ Hn).
Defined.

(** ** The scraper: what a page yields *)

(** A [Product] script that is read to its end. *)
Definition is_product (s : LD.script) : bool :=
  match s with
  | LD.Product _ => true
  | _ => false
  end.

(** Apart from the name and the description, the dict is the one the scan
    started from as long as no [Product] is read to its end. *)
Definition same_but_name_and_description (jd' jd : JsonData.t) : Prop :=
  JsonData.broker_name jd' = JsonData.broker_name jd
  ∧ JsonData.broker_profile jd' = JsonData.broker_profile jd
  ∧ JsonData.asking_price jd' = JsonData.asking_price jd
  ∧ JsonData.category jd' = JsonData.category jd
  ∧ JsonData.listing_id jd' = JsonData.listing_id jd.

Lemma fill_product_overwrites page p jd' jd :
  same_but_name_and_description jd' jd →
  fill_product page p jd' = fill_product page p jd.
Proof.
  intros (Hn & Hp & Ha & Hc & Hl). unfold fill_product.
  by rewrite Hn, Hp, Ha, Hc, Hl.
Qed.

Lemma scan_scripts_no_product page scripts jd :
  Forall (λ s, is_product s = false) scripts →
  same_but_name_and_description (scan_scripts page scripts jd) jd.
Proof.
  revert jd. induction scripts as [|s scripts IH]; intros jd Hs; cbn [scan_scripts].
  - by repeat split.
  - apply Forall_cons in Hs as [Hs Hrest].
    destruct s as [| |name description|p]; [by apply IH..| |done].
    destruct (IH (fill_name_and_description name description jd) Hrest)
      as (Hn & Hp & Ha & Hc & Hl).
    by repeat split.
Qed.

Lemma scan_scripts_first_product page pre p post jd :
  Forall (λ s, is_product s = false) pre →
  scan_scripts page (pre ++ LD.Product p :: post) jd = fill_product page p jd.
Proof.
  revert jd. induction pre as [|s pre IH]; intros jd Hpre; cbn [app scan_scripts];
    [done|].
  apply Forall_cons in Hpre as [Hs Hpre].
  destruct s as [| |name description|p']; [by apply IH..| |done].
  rewrite IH by done. apply fill_product_overwrites. by repeat split.
Qed.

(** X8: the first [Product] script that is read to its end decides what is
    read from the JSON-LD of a page: the scripts before it, which do not
    parse, describe something else, or are products whose read raises,
    leave nothing in the result (the name and the description that a
    raising one has stored are overwritten), and the scripts after it are
    never read. *)
Theorem first_product_script_decides (page : soup) (pre post : list LD.script)
    (p : LD.product) :
  ld_scripts page = pre ++ LD.Product p :: post →
  Forall (λ s, is_product s = false) pre →
  _extract_json_ld_data page = fill_product page p JsonData.empty.
Proof.
  intros Hs Hpre. unfold _extract_json_ld_data. rewrite Hs.
  by apply scan_scripts_first_product.
Qed.

(** Without such a script, the last product whose read raises leaves its
    name and its description in the dict, and nothing else. *)
Example raising_product_leaves_name_and_description (page : soup) :
  ld_scripts page = [LD.Invalid; LD.Raising "Diner" "Sold as is"; LD.Other] →
  _extract_json_ld_data page
  = fill_name_and_description "Diner" "Sold as is" JsonData.empty.
Proof. intros Hs. unfold _extract_json_ld_data. by rewrite Hs. Qed.

(** The theorem at work: a product whose read raises, then the product of
    the diner. *)
Definition diner_product : LD.product :=
  {| LD.p_name := "Downtown Diner";
     LD.p_description := "Established diner";
     LD.p_offers :=
       Some {| LD.offeredBy :=
                 Some {| LD.name := "Business Listed By:Jo Broker";
                         LD.url := "https://www.bizbuysell.com/broker/jo/" |};
               LD.price := Some (VNum (Q2Qc (inject_Z 500000))) |};
     LD.p_category := "Restaurant";
     LD.p_productId := "123" |}.

Definition two_product_page : soup :=
  {| ld_scripts := [LD.Invalid; LD.Raising "Corner Cafe" "Broker withheld";
                    LD.Other; LD.Product diner_product; LD.Invalid];
     broker_card := None; span_f_l := ["Las Vegas, NV"]; ctc_phone := [];
     help_g4 := [] |}.

Lemma first_product_script_decides_witness :
  ld_scripts two_product_page
  = [LD.Invalid; LD.Raising "Corner Cafe" "Broker withheld"; LD.Other]
    ++ LD.Product diner_product :: [LD.Invalid]
  ∧ Forall (λ s, is_product s = false)
      [LD.Invalid; LD.Raising "Corner Cafe" "Broker withheld"; LD.Other]
  ∧ _extract_json_ld_data two_product_page
    = fill_product two_product_page diner_product JsonData.empty.
Proof.
  assert (Hpre : Forall (λ s, is_product s = false)
                   [LD.Invalid; LD.Raising "Corner Cafe" "Broker withheld"; LD.Other])
    by (repeat constructor).
  split; [reflexivity|]. split; [exact Hpre|].
  exact (first_product_script_decides two_product_page
           [LD.Invalid; LD.Raising "Corner Cafe" "Broker withheld"; LD.Other]
           [LD.Invalid] diner_product eq_refl Hpre).
Defined.

Section Records.

Variable json_loads : string → option json.

(** X9: a page without a [Product] script that is read to its end never
    yields a record, whatever the rest of the page and the replies of the
    classification service. *)
Theorem page_without_product_yields_nothing (page : soup)
    (cat_reply loc_reply : ai_reply) (now : string) (url_data : Candidate.t) :
  Forall (λ s, is_product s = false) (ld_scripts page) →
  _extract_detail_data json_loads cat_reply loc_reply now page url_data = None.
Proof.
  intros Hno. unfold _extract_detail_data, extract_body.
  destruct (scan_scripts_no_product page _ JsonData.empty Hno) as (_ & _ & Ha & _).
  fold (_extract_json_ld_data page) in Ha. by rewrite Ha.
Qed.

(** X10: the fields of an accepted record: the address is that of the candidate;
    the asking price is present and truthy; the date is that of the call;
    [established] is never filled; gross revenue and cash flow are the third
    and the second [p.help span.g4] texts, empty when the page has fewer;
    the categories are those of [categorize_listing] on the raw category. *)
Theorem accepted_record_fields (cat_reply loc_reply : ai_reply) (now : string)
    (page : soup) (url_data : Candidate.t) (d : listing) :
  _extract_detail_data json_loads cat_reply loc_reply now page url_data = Some d →
  url d = default "" (Candidate.url url_data)
  ∧ (∃ v, asking_price d = Some v ∧ pyval_truthy v = true)
  ∧ scraped_date d = now
  ∧ established d = None
  ∧ gross_revenue d = default "" (help_g4 page !! 2%nat)
  ∧ cashflow d = default "" (help_g4 page !! 1%nat)
  ∧ category d = categorize_listing json_loads (original_category d) cat_reply.
Proof.
  unfold _extract_detail_data, extract_body.
  destruct (JsonData.asking_price (_extract_json_ld_data page)) as [v|] eqn:Hp;
    cbn [andb]; [|done].
  destruct (pyval_truthy v) eqn:Hv; cbn [andb]; [|done].
  destruct (Py.truthy (_extract_location page)); [|done].
  destruct (ai_extract_city_and_state json_loads (_extract_location page) loc_reply)
    as [[| | | | |fields]|]; cbn; try done.
  intros [= <-]. cbn. eauto 10.
Qed.

End Records.

Lemma page_without_product_yields_nothing_witness :
  Forall (λ s, is_product s = false) [LD.Invalid; LD.Other]
  ∧ _extract_detail_data sample_loads (AiContent category_reply_text)
      (AiContent location_reply_text) "2025-01-02 00:00:00"
      {| ld_scripts := [LD.Invalid; LD.Other]; broker_card := None;
         span_f_l := ["Las Vegas, NV"]; ctc_phone := []; help_g4 := [] |}
      candidate_123 = None.
Proof.
  assert (H : Forall (λ s, is_product s = false) [LD.Invalid; LD.Other])
    by repeat constructor.
  split; [exact H|].
  exact (page_without_product_yields_nothing sample_loads
           {| ld_scripts := [LD.Invalid; LD.Other]; broker_card := None;
              span_f_l := ["Las Vegas, NV"]; ctc_phone := []; help_g4 := [] |}
           _ _ _ _ H).
Defined.

Lemma accepted_record_fields_witness :
  url diner_record = default "" (Candidate.url candidate_123)
  ∧ (∃ v, asking_price diner_record = Some v ∧ pyval_truthy v = true)
  ∧ scraped_date diner_record = "2025-01-02 00:00:00"
  ∧ established diner_record = None
  ∧ gross_revenue diner_record = default "" (help_g4 diner_page !! 2%nat)
  ∧ cashflow diner_record = default "" (help_g4 diner_page !! 1%nat)
  ∧ category diner_record
    = categorize_listing sample_loads (original_category diner_record)
        (AiContent category_reply_text).
Proof.
  apply (accepted_record_fields sample_loads (AiContent category_reply_text)
           (AiContent location_reply_text) "2025-01-02 00:00:00" diner_page
           candidate_123 diner_record).
  vm_compute. reflexivity.
Defined.

(** ** The scraper: one candidate and the pool *)

Section Candidates.

Variable json_loads : string → option json.

Lemma scrape_without_address env url_data st :
  truthy_url url_data = None →
  _scrape_listing_detail_selenium json_loads env url_data st = (None, st).
Proof.
  unfold _scrape_listing_detail_selenium, truthy_url.
  destruct (Candidate.url url_data) as [u|]; cbn [from_option id]; [|done].
  by destruct (Py.truthy u).
Qed.

Lemma scrape_of_recent_address env url_data st u :
  Candidate.url url_data = Some u → u ∈ recent_scrapped_listings_urls st →
  _scrape_listing_detail_selenium json_loads env url_data st = (None, st).
Proof.
  unfold _scrape_listing_detail_selenium. intros -> Hin. cbn [from_option id].
  destruct (Py.truthy u); cbn [negb]; [|done]. by case_bool_decide.
Qed.

Lemma scrape_without_driver env url_data st :
  driver st = None →
  _scrape_listing_detail_selenium json_loads env url_data st = (None, st).
Proof.
  intros Hd. unfold _scrape_listing_detail_selenium.
  destruct (Candidate.url url_data) as [u|]; cbn [from_option id]; [|done].
  destruct (Py.truthy u); cbn [negb]; [|done].
  case_bool_decide; [done|].
  unfold max_trials. cbn [seq scrape_trials].
  by rewrite (attempt_once_dead json_loads _ _ _ _ Hd).
Qed.

(** X11: a candidate without a usable address, one whose address is in the set
    of recent addresses, and any candidate met without a driver, are given
    up at once: no page is loaded, no reset is made, the scraper is left as
    it was. *)
Theorem scrape_guards (env : nat → attempt) (url_data : Candidate.t) (st : scraper) :
  truthy_url url_data = None
  ∨ (∃ u, Candidate.url url_data = Some u ∧ u ∈ recent_scrapped_listings_urls st)
  ∨ driver st = None →
  _scrape_listing_detail_selenium json_loads env url_data st = (None, st).
Proof.
  intros [Hu|[(u & Hu & Hin)|Hd]].
  - by apply scrape_without_address.
  - by apply (scrape_of_recent_address env url_data st u).
  - by apply scrape_without_driver.
Qed.

Lemma extracted_record_url cat_reply loc_reply now page url_data d :
  _extract_detail_data json_loads cat_reply loc_reply now page url_data = Some d →
  url d = default "" (Candidate.url url_data).
Proof.
  unfold _extract_detail_data, extract_body.
  destruct (JsonData.asking_price (_extract_json_ld_data page)) as [v|];
    cbn [andb]; [|done].
  destruct (pyval_truthy v); cbn [andb]; [|done].
  destruct (Py.truthy (_extract_location page)); [|done].
  destruct (ai_extract_city_and_state json_loads (_extract_location page) loc_reply)
    as [[| | | | |fields]|]; cbn; try done.
  by intros [= <-].
Qed.

Lemma verdict_record_url a url_data d :
  verdict json_loads a url_data = Return (Some d) →
  url d = default "" (Candidate.url url_data).
Proof.
  unfold verdict. destruct (get a); [|done].
  destruct (match access_denied_txt a with Some txt => Py.truthy txt | None => false end);
    [done|].
  destruct (page_source a) as [page|]; [|done].
  destruct (_extract_detail_data json_loads _ _ _ page url_data) as [d'|] eqn:E.
  - intros [= <-]. by apply (extracted_record_url _ _ _ _ _ _ E).
  - by destruct (bid_post a).
Qed.

(** X12: a record comes out of the last page load of the scrape, after at most
    one reset and with none after it, and carries the address that was
    loaded. *)
Theorem success_trace (env : nat → attempt) (url_data : Candidate.t)
    (st : scraper) (d : listing) :
  (_scrape_listing_detail_selenium json_loads env url_data st).1 = Some d →
  ∃ u, truthy_url url_data = Some u
    ∧ url d = u
    ∧ (log (_scrape_listing_detail_selenium json_loads env url_data st).2
       = log st ++ [Navigate u]
       ∨ log (_scrape_listing_detail_selenium json_loads env url_data st).2
         = log st ++ [Navigate u; Reset; Navigate u]).
Proof.
  destruct (truthy_url url_data) as [u|] eqn:Ht.
  2:{ by rewrite (scrape_without_address env url_data st Ht). }
  apply truthy_url_Some in Ht as [Hu Htr].
  destruct (decide (u ∈ recent_scrapped_listings_urls st)) as [Hin|Hout].
  { by rewrite (scrape_of_recent_address env url_data st u Hu Hin). }
  destruct (driver st) as [d0|] eqn:Hd.
  2:{ by rewrite (scrape_without_driver env url_data st Hd). }
  rewrite (scrape_unfold json_loads env url_data st u Hu Htr Hout).
  rewrite (attempt_once_live json_loads (env 1%nat) u url_data st d0 Hd).
  destruct (verdict json_loads (env 1%nat) url_data) as [r1|] eqn:V1.
  - cbn [fst snd]. intros ->. exists u. split; [done|]. split.
    + apply verdict_record_url in V1. by rewrite V1, Hu.
    + left. apply log_record.
  - set (st1 := reset_driver (env 1%nat) (record (Navigate u) st)).
    assert (Hlog1 : log st1 = log st ++ [Navigate u; Reset]).
    { unfold st1. rewrite log_reset_driver, log_record, <- app_assoc. done. }
    destruct (driver st1) as [d1|] eqn:Hd1.
    + rewrite (attempt_once_live json_loads (env 2%nat) u url_data st1 d1 Hd1).
      destruct (verdict json_loads (env 2%nat) url_data) as [r2|] eqn:V2; [|done].
      cbn [fst snd]. intros ->. exists u. split; [done|]. split.
      * apply verdict_record_url in V2. by rewrite V2, Hu.
      * right. rewrite log_record, Hlog1, <- app_assoc. done.
    + by rewrite (attempt_once_dead json_loads (env 2%nat) u url_data st1 Hd1).
Qed.

Lemma scrape_trials_record_url env u url_data trials st d :
  (scrape_trials json_loads env u url_data trials st).1 = Some d →
  url d = default "" (Candidate.url url_data).
Proof.
  revert st. induction trials as [|t trials IH]; intros st; cbn [scrape_trials];
    [done|].
  destruct (driver st) as [d0|] eqn:Hd.
  - rewrite (attempt_once_live json_loads (env t) u url_data st d0 Hd).
    destruct (verdict json_loads (env t) url_data) as [r|] eqn:V; [|apply IH].
    cbn [fst]. intros ->. by apply (verdict_record_url (env t)).
  - by rewrite (attempt_once_dead json_loads (env t) u url_data st Hd).
Qed.

Lemma scrape_record_url env url_data st d :
  (_scrape_listing_detail_selenium json_loads env url_data st).1 = Some d →
  truthy_url url_data = Some (url d).
Proof.
  unfold _scrape_listing_detail_selenium, truthy_url.
  destruct (Candidate.url url_data) as [u|] eqn:Hu; cbn [from_option id]; [|done].
  destruct (Py.truthy u); cbn [negb]; [|done].
  case_bool_decide; [done|].
  intros Hd%scrape_trials_record_url. rewrite Hu in Hd. cbn [from_option id] in Hd.
  by rewrite Hd.
Qed.

(** X13: the records collected by the pool follow the candidates: their
    addresses are, in the order of submission, addresses of the submitted
    candidates, at most one record per candidate. *)
Theorem collected_records_follow_candidates (envs : nat → nat → attempt) (i : nat)
    (urls_to_process : list Candidate.t) (st : scraper) :
  url <$> (collect json_loads envs i urls_to_process st).1
    `sublist_of` omap truthy_url urls_to_process.
Proof.
  revert i st. induction urls_to_process as [|url_data rest IH]; intros i st;
    cbn [collect].
  - constructor.
  - pose proof (scrape_record_url (envs i) url_data st) as Hs.
    destruct (_scrape_listing_detail_selenium json_loads (envs i) url_data st)
      as [detail st'].
    specialize (IH (S i) st').
    destruct (collect json_loads envs (S i) rest st') as [all_details st''].
    cbn [fst snd omap list_omap] in *. destruct detail as [d|].
    + rewrite (Hs d eq_refl). cbn. by apply sublist_skip.
    + destruct (truthy_url url_data); [by apply sublist_cons | done].
Qed.

Lemma attempt_once_keeps_recent a u url_data st :
  recent_scrapped_listings_urls (attempt_once json_loads a u url_data st).2
  = recent_scrapped_listings_urls st.
Proof.
  destruct (driver st) as [d|] eqn:Hd.
  - rewrite (attempt_once_live json_loads a u url_data st d Hd).
    destruct (verdict json_loads a url_data); cbn [snd]; [done|].
    by rewrite recent_reset_driver.
  - by rewrite (attempt_once_dead json_loads a u url_data st Hd).
Qed.

Lemma scrape_trials_keeps_recent env u url_data trials st :
  recent_scrapped_listings_urls (scrape_trials json_loads env u url_data trials st).2
  = recent_scrapped_listings_urls st.
Proof.
  revert st. induction trials as [|t trials IH]; intros st; cbn [scrape_trials]; [done|].
  pose proof (attempt_once_keeps_recent (env t) u url_data st) as Hk.
  destruct (attempt_once json_loads (env t) u url_data st) as [[r|] st'];
    cbn [snd] in *; [done|]. by rewrite IH.
Qed.

Lemma scrape_keeps_recent env url_data st :
  recent_scrapped_listings_urls
    (_scrape_listing_detail_selenium json_loads env url_data st).2
  = recent_scrapped_listings_urls st.
Proof.
  unfold _scrape_listing_detail_selenium.
  destruct (negb _); [done|]. case_bool_decide; [done|].
  apply scrape_trials_keeps_recent.
Qed.

Lemma collect_keeps_recent envs i urls_to_process st :
  recent_scrapped_listings_urls (collect json_loads envs i urls_to_process st).2
  = recent_scrapped_listings_urls st.
Proof.
  revert i st. induction urls_to_process as [|url_data rest IH]; intros i st;
    cbn [collect]; [done|].
  pose proof (scrape_keeps_recent (envs i) url_data st) as Hk.
  destruct (_scrape_listing_detail_selenium json_loads (envs i) url_data st)
    as [detail st'].
  specialize (IH (S i) st').
  destruct (collect json_loads envs (S i) rest st') as [all_details st''].
  cbn [snd] in *. by rewrite IH.
Qed.

(** X14: the set of recent addresses is emptied when [process_urls_directly]
    starts and nothing is ever added to it: it is still empty at the end,
    so the guard against addresses already scraped never applies within a
    run, and an address submitted twice is scraped twice. *)
Theorem recent_urls_stay_empty (envs : nat → nat → attempt) (write : write_reply)
    (urls_to_process : list Candidate.t) (st : scraper) :
  recent_scrapped_listings_urls
    (process_urls_directly json_loads envs write urls_to_process st).2 = ∅.
Proof.
  unfold process_urls_directly, _process_urls_threaded.
  pose proof (collect_keeps_recent envs 0 urls_to_process
                {| driver := driver st; recent_scrapped_listings_urls := ∅;
                   mongo_col := mongo_col st; log := log st |}) as Hk.
  destruct (collect json_loads envs 0 urls_to_process _) as [[|d ds] st'];
    cbn [snd] in *; [done|].
  unfold _save_details_to_mongo. cbv zeta.
  destruct write as [|applied]; by destruct (bulk_write _ _ _).
Qed.

End Candidates.

Lemma scrape_guards_witness :
  (truthy_url {| Candidate.title := Some "No address"; Candidate.url := Some "";
                 Candidate.listing_id := None |} = None
   ∨ (∃ u, Candidate.url {| Candidate.title := Some "No address";
                            Candidate.url := Some "";
                            Candidate.listing_id := None |} = Some u
           ∧ u ∈ recent_scrapped_listings_urls live_scraper)
   ∨ driver live_scraper = None)
  ∧ _scrape_listing_detail_selenium sample_loads (λ _, good_attempt)
      {| Candidate.title := Some "No address"; Candidate.url := Some "";
         Candidate.listing_id := None |} live_scraper
    = (None, live_scraper).
Proof.
  assert (H : truthy_url {| Candidate.title := Some "No address";
                            Candidate.url := Some "";
                            Candidate.listing_id := None |} = None) by reflexivity.
  split; [by left|].
  exact (scrape_guards sample_loads (λ _, good_attempt) _ live_scraper (or_introl H)).
Defined.

Lemma success_trace_witness :
  (_scrape_listing_detail_selenium sample_loads blocked_once candidate_123
     live_scraper).1 = Some diner_record
  ∧ ∃ u, truthy_url candidate_123 = Some u
    ∧ url diner_record = u
    ∧ (log (_scrape_listing_detail_selenium sample_loads blocked_once candidate_123
              live_scraper).2
       = log live_scraper ++ [Navigate u]
       ∨ log (_scrape_listing_detail_selenium sample_loads blocked_once candidate_123
                live_scraper).2
         = log live_scraper ++ [Navigate u; Reset; Navigate u]).
Proof.
  assert (H : (_scrape_listing_detail_selenium sample_loads blocked_once
                 candidate_123 live_scraper).1 = Some diner_record).
  { vm_compute. reflexivity. }
  split; [exact H|].
  exact (success_trace sample_loads blocked_once candidate_123 live_scraper
           diner_record H).
Defined.

(** ** The store: counts, growth and the next run *)

Lemma bulk_write_counts ops col r :
  (upserted_ids (bulk_write ops col r).2 + modified_count (bulk_write ops col r).2
   ≤ upserted_ids r + modified_count r + length ops)%nat
  ∧ (upserted_ids r ≤ upserted_ids (bulk_write ops col r).2)%nat.
Proof.
  revert col r. induction ops as [|[k d] ops IH]; intros col r; cbn [bulk_write length].
  - cbn. lia.
  - destruct (update_one k d col) as [col' w].
    destruct (IH col' (tally r w)) as [H1 H2].
    destruct w; cbn [tally upserted_ids modified_count] in *; lia.
Qed.

Lemma applied_ops_length {A : Type} (applied : list bool) (ops : list A) :
  (length (applied_ops applied ops) ≤ length ops)%nat.
Proof.
  revert ops. induction applied as [|b applied IH]; intros [|op ops];
    cbn [applied_ops length]; try lia.
  specialize (IH ops). destruct b; cbn [length]; lia.
Qed.

(** X15: the count that [_save_details_to_mongo] returns never exceeds the
    number of records of the batch, and the collection never loses a
    document.  When the write completes the collection grows by at most
    that count; when it raises the count is zero whatever has been
    applied, and the collection grows by at most the number of records. *)
Theorem save_count_bounds (write : write_reply) (details : list listing)
    (st : scraper) :
  ((_save_details_to_mongo write details st).1 ≤ length details)%nat
  ∧ (length (mongo_col st)
     ≤ length (mongo_col (_save_details_to_mongo write details st).2))%nat
  ∧ (length (mongo_col (_save_details_to_mongo write details st).2)
     ≤ length (mongo_col st) + length details)%nat
  ∧ match write with
    | WriteCompletes =>
        (length (mongo_col (_save_details_to_mongo write details st).2)
         ≤ length (mongo_col st) + (_save_details_to_mongo write details st).1)%nat
    | WriteRaises _ => (_save_details_to_mongo write details st).1 = 0%nat
    end.
Proof.
  unfold _save_details_to_mongo. destruct details as [|d details].
  { destruct write; cbn; repeat split; lia. }
  cbv zeta. set (ops := (λ d, (key_of d, d)) <$> d :: details).
  assert (Hops : length ops = length (d :: details)) by apply length_fmap.
  destruct write as [|applied]; cbn [mongo_col record].
  - pose proof (bulk_write_counts ops (mongo_col st)
                  {| upserted_ids := 0; modified_count := 0 |}) as [H1 H2].
    pose proof (bulk_write_length ops (mongo_col st)
                  {| upserted_ids := 0; modified_count := 0 |}) as H3.
    destruct (bulk_write ops (mongo_col st) _) as [col result].
    cbn [fst snd mongo_col upserted_ids modified_count] in *. repeat split; lia.
  - pose proof (applied_ops_length applied ops) as Ha.
    pose proof (bulk_write_counts (applied_ops applied ops) (mongo_col st)
                  {| upserted_ids := 0; modified_count := 0 |}) as [H1 H2].
    pose proof (bulk_write_length (applied_ops applied ops) (mongo_col st)
                  {| upserted_ids := 0; modified_count := 0 |}) as H3.
    destruct (bulk_write (applied_ops applied ops) (mongo_col st) _) as [col result].
    cbn [fst snd mongo_col upserted_ids modified_count] in *. repeat split; lia.
Qed.





Lemma freshness_filter_fst col listing_urls :
  (freshness_filter col listing_urls).1 = List.filter (url_is_new col) listing_urls.
Proof.
  unfold freshness_filter; cbn [fst]. apply filter_ext_in.
  intros c Hc. apply kept_iff_url_is_new. by apply list_elem_of_In.
Qed.


(** X17: the freshness filter returns a part of its input, in order, and
    filtering its output again against the same store changes nothing. *)
Theorem freshness_filter_idempotent (col : list listing)
    (listing_urls : list Candidate.t) :
  (freshness_filter col listing_urls).1 `sublist_of` listing_urls
  ∧ (freshness_filter col (freshness_filter col listing_urls).1).1
    = (freshness_filter col listing_urls).1.
Proof.
  rewrite !freshness_filter_fst. split.
  - induction listing_urls as [|c rest IH]; cbn [List.filter]; [constructor|].
    destruct (url_is_new col c); [by apply sublist_skip | by apply sublist_cons].
  - induction listing_urls as [|c rest IH]; cbn [List.filter]; [done|].
    destruct (url_is_new col c) eqn:E; [|done].
    cbn [List.filter]. by rewrite E, IH.
Qed.


(** ** The driver ([main.py]) *)

(** What one run of [main] leaves behind. *)
Record run := {
  ok : bool;                    (* the value returned by [main] *)
  store : list listing;         (* the collection after the run *)
  events : list event;          (* what the detail scraper did *)
  campaigns : list campaign     (* the campaigns that were sent *)
}.

(** The environment variables that the notifier reads when it is built;
    [template_id] is [int(os.getenv("MAILCHIMP_EMAIL_TEMPLATE_ID"))]. *)
Record environ := {
  MAILCHIMP_API_KEY : option string;
  MAILCHIMP_LIST_ID : option string;
  template_id : exc Z
}.

Section Driver.

Variable py_float : string → option Qc.
Variable py_str : Qc → string.
Variable json_loads : string → option json.
Variable create_segment : list string → string → option Z.
Variable send_campaign : Z → list listing → list string → bool.

(** [notif[key]] on the dict returned by [notify]: the three counts, and
    [success_rate] when somebody was matched; any other key raises
    [KeyError]. *)
Definition summary_get (key : string) (notif : summary) : exc unit :=
  if String.eqb key "matched_subscribers" || String.eqb key "emails_sent"
     || String.eqb key "groups_created"
  then Ret tt
  else if String.eqb key "success_rate"
       && negb (Nat.eqb (matched_subscribers notif) 0)
  then Ret tt
  else Raise OtherException.

(** [MailchimpNotifier(os.getenv("MAILCHIMP_API_KEY"))]: the constructor
    reads the template number, which raises when the variable is unset or
    is no number, and splits the key, which raises when the key is unset. *)
Definition MailchimpNotifier (env : environ) : exc notifier :=
  _ ← template_id env;
  match MAILCHIMP_API_KEY env with
  | None => Raise AttributeError
  | Some key =>
      Ret {| api_key := Some key; self_list_id := MAILCHIMP_LIST_ID env |}
  end.

(** [notify_subscribers(details, list_id)].  When [details] is the integer
    of an empty pool, [notify] passes its guards and fetches the
    subscribers as for a list; the loop over the listings then raises as
    soon as a subscriber passes the two guards of the matching. *)
Definition notify_subscribers (env : environ) (fetch : fetch_reply)
    (details : pool_result) (list_id : option string)
    : exc (summary * list campaign) :=
  notifier ← MailchimpNotifier env;
  match details with
  | PyList filtered_listing_details =>
      notify py_float py_str create_segment send_campaign notifier fetch
        filtered_listing_details list_id
  | PyInt _ =>
      subs ← notify_guards notifier fetch list_id;
      if forallb skipped subs
      then Ret ({| matched_subscribers := 0; emails_sent := 0;
                   groups_created := 0 |}, [])
      else Raise TypeError
  end.

(** The [try] block of [main]: its outcome, with the collection, the
    events of the detail scraper and the campaigns sent by then.
    [driver0] is the driver that the constructor of the detail scraper
    obtains. *)
Definition main_body (listing_urls : list Candidate.t) (col : list listing)
    (driver0 : option nat) (envs : nat → nat → attempt) (write : write_reply)
    (env : environ) (fetch : fetch_reply)
    : exc bool * (list listing * list event * list campaign) :=
  match listing_urls with
  | [] => (Ret false, (col, [], []))
  | _ =>
      let filtered_urls := (freshness_filter col listing_urls).1 in
      match filtered_urls with
      | [] =>
          match notify_subscribers env fetch (PyList []) (Some "7881b0503b") with
          | Raise e => (Raise e, (col, [], []))
          | Ret (notif, sent) =>
              (_ ← summary_get "matched_subscribers" notif;
               _ ← summary_get "campaign_sent" notif;
               Ret true,
               (col, [], sent))
          end
      | _ =>
          let detail_scraper :=
            {| driver := driver0; recent_scrapped_listings_urls := ∅;
               mongo_col := col; log := [] |} in
          let '(filtered_urls_details, st) :=
            process_urls_directly json_loads envs write filtered_urls
              detail_scraper in
          match
            notify_subscribers env fetch filtered_urls_details (Some "7881b0503b")
          with
          | Raise e => (Raise e, (mongo_col st, log st, []))
          | Ret (notif, sent) => (Ret true, (mongo_col st, log st, sent))
          end
      end
  end.

(** [main]: the value of the block, or [False] when it raised. *)
Definition main (listing_urls : list Candidate.t) (col : list listing)
    (driver0 : option nat) (envs : nat → nat → attempt) (write : write_reply)
    (env : environ) (fetch : fetch_reply) : run :=
  let '(outcome, (col', evs, sent)) :=
    main_body listing_urls col driver0 envs write env fetch in
  {| ok := match outcome with Ret b => b | Raise _ => false end;
     store := col'; events := evs; campaigns := sent |}.

Lemma notify_subscribers_empty_batch env fetch :
  match notify_subscribers env fetch (PyList []) (Some "7881b0503b") with
  | Ret r =>
      r = ({| matched_subscribers := 0; emails_sent := 0; groups_created := 0 |}, [])
  | Raise _ => True
  end.
Proof.
  unfold notify_subscribers.
  destruct (MailchimpNotifier env) as [self|e]; cbn [mbind exc_bind]; [|done].
  unfold notify.
  destruct (notify_guards self fetch _) as [subs|e]; cbn [mbind exc_bind]; [|done].
  by rewrite notify_fetched_empty_batch.
Qed.

(** X18: when every discovered listing is already stored, the run scrapes
    nothing and sends nothing, and [main] returns [False]: the line that
    logs the outcome of the notification reads the key [campaign_sent],
    which the dict returned by [notify] never has. *)
Theorem nothing_new_reports_failure (listing_urls : list Candidate.t)
    (col : list listing) (driver0 : option nat) (envs : nat → nat → attempt)
    (write : write_reply) (env : environ) (fetch : fetch_reply) :
  (freshness_filter col listing_urls).1 = [] →
  main listing_urls col driver0 envs write env fetch
  = {| ok := false; store := col; events := []; campaigns := [] |}.
Proof.
  intros Hf. unfold main, main_body. destruct listing_urls as [|c rest]; [done|].
  rewrite Hf. pose proof (notify_subscribers_empty_batch env fetch) as Hn.
  destruct (notify_subscribers env fetch (PyList []) _) as [[notif sent]|e];
    [|done].
  by injection Hn as -> ->.
Qed.

(** X19: when the pool yields no record, [main] hands the integer [0] to the
    notifier; with a subscriber that passes the two guards the loop over the
    listings raises, nothing is sent and [main] returns [False]. *)
Theorem empty_pool_reports_failure (listing_urls : list Candidate.t)
    (col : list listing) (driver0 : option nat) (envs : nat → nat → attempt)
    (write : write_reply) (env : environ) (subs : list subscriber) (sub : subscriber) :
  (process_urls_directly json_loads envs write
     (freshness_filter col listing_urls).1
     {| driver := driver0; recent_scrapped_listings_urls := ∅; mongo_col := col;
        log := [] |}).1 = PyInt 0 →
  sub ∈ subs → skipped sub = false →
  ok (main listing_urls col driver0 envs write env (Members subs)) = false
  ∧ campaigns (main listing_urls col driver0 envs write env (Members subs)) = [].
Proof.
  intros Hp Hin Hs. unfold main, main_body. destruct listing_urls as [|c rest]; [done|].
  destruct (freshness_filter col (c :: rest)).1 as [|f fs] eqn:Hf.
  - pose proof (notify_subscribers_empty_batch env (Members subs)) as Hn.
    destruct (notify_subscribers env (Members subs) (PyList []) _)
      as [[notif sent]|e]; [|done].
    by injection Hn as -> ->.
  - destruct (process_urls_directly json_loads envs write (f :: fs) _)
      as [details st]. cbn [fst] in Hp. subst details.
    unfold notify_subscribers.
    destruct (MailchimpNotifier env) as [self|e]; cbn [mbind exc_bind]; [|done].
    unfold notify_guards. destruct (negb _); [done|]. cbv zeta.
    destruct (negb _); [done|]. cbn [fetch_subscribers mbind exc_bind].
    assert (forallb skipped subs = false) as ->; [|done].
    apply not_true_is_false. intros Hall. rewrite forallb_forall in Hall.
    apply list_elem_of_In in Hin. specialize (Hall sub Hin). congruence.
Qed.

Lemma attempt_once_navigates a u url_data st v :
  Navigate v ∈ log (attempt_once json_loads a u url_data st).2 →
  Navigate v ∈ log st ∨ v = u.
Proof.
  destruct (driver st) as [d|] eqn:Hd.
  - rewrite (attempt_once_live json_loads a u url_data st d Hd).
    destruct (verdict json_loads a url_data); cbn [snd].
    + rewrite log_record. intros [?|H%list_elem_of_singleton]%elem_of_app; [by left|].
      right. congruence.
    + rewrite log_reset_driver, log_record.
      intros [[?|H1%list_elem_of_singleton]%elem_of_app|H2%list_elem_of_singleton]%elem_of_app;
        [by left|right; congruence|done].
  - rewrite (attempt_once_dead json_loads a u url_data st Hd). by left.
Qed.

Lemma scrape_trials_navigates env u url_data trials st v :
  Navigate v ∈ log (scrape_trials json_loads env u url_data trials st).2 →
  Navigate v ∈ log st ∨ v = u.
Proof.
  revert st. induction trials as [|t trials IH]; intros st; cbn [scrape_trials].
  - by left.
  - pose proof (attempt_once_navigates (env t) u url_data st v) as Ha.
    destruct (attempt_once json_loads (env t) u url_data st) as [[r|] st'];
      cbn [snd] in *; [done|].
    intros H. destruct (IH st' H) as [H'|?]; [by apply Ha | by right].
Qed.

Lemma scrape_navigates env url_data st v :
  Navigate v ∈ log (_scrape_listing_detail_selenium json_loads env url_data st).2 →
  Navigate v ∈ log st ∨ truthy_url url_data = Some v.
Proof.
  unfold _scrape_listing_detail_selenium, truthy_url.
  destruct (Candidate.url url_data) as [u|]; cbn [from_option id]; [|by left].
  destruct (Py.truthy u); cbn [negb]; [|by left].
  case_bool_decide; [by left|].
  intros Hn. destruct (scrape_trials_navigates _ _ _ _ _ _ Hn) as [?| ->];
    [by left|by right].
Qed.

Lemma collect_navigates envs i urls_to_process st v :
  Navigate v ∈ log (collect json_loads envs i urls_to_process st).2 →
  Navigate v ∈ log st ∨ v ∈ omap truthy_url urls_to_process.
Proof.
  revert i st. induction urls_to_process as [|url_data rest IH]; intros i st;
    cbn [collect]; [by left|].
  pose proof (scrape_navigates (envs i) url_data st v) as Hs.
  destruct (_scrape_listing_detail_selenium json_loads (envs i) url_data st)
    as [detail st'].
  specialize (IH (S i) st').
  destruct (collect json_loads envs (S i) rest st') as [all_details st''].
  cbn [snd omap list_omap] in *. intros H.
  destruct (IH H) as [H'|H'].
  - destruct (Hs H') as [?|Ht]; [by left|]. right. rewrite Ht. apply list_elem_of_here.
  - right. destruct (truthy_url url_data); [by apply list_elem_of_further | done].
Qed.

Lemma process_navigates envs write urls_to_process st v :
  Navigate v
  ∈ log (process_urls_directly json_loads envs write urls_to_process st).2 →
  Navigate v ∈ log st ∨ v ∈ omap truthy_url urls_to_process.
Proof.
  unfold process_urls_directly, _process_urls_threaded.
  pose proof (collect_navigates envs 0 urls_to_process
                {| driver := driver st; recent_scrapped_listings_urls := ∅;
                   mongo_col := mongo_col st; log := log st |} v) as Hc.
  destruct (collect json_loads envs 0 urls_to_process _) as [[|d ds] st'];
    cbn [snd log] in *; [done|].
  unfold _save_details_to_mongo. cbv zeta.
  assert (Hrec : Navigate v ∈ log (record (BulkWrite (length
                   ((λ d, (key_of d, d)) <$> d :: ds))) st') → Navigate v ∈ log st').
  { rewrite log_record. by intros [?|?%list_elem_of_singleton]%elem_of_app. }
  destruct write as [|applied]; destruct (bulk_write _ _ _); cbn [snd log];
    by intros ?%Hrec%Hc.
Qed.

(** X20: the freshness invariant of a whole run: every page that [main] loads is
    the address of a discovered candidate and is the address of no document
    that the store held when the run began. *)
Theorem main_loads_only_new_urls (listing_urls : list Candidate.t)
    (col : list listing) (driver0 : option nat) (envs : nat → nat → attempt)
    (write : write_reply) (env : environ) (fetch : fetch_reply) (v : string) :
  Navigate v
  ∈ events (main listing_urls col driver0 envs write env fetch) →
  v ∈ omap truthy_url listing_urls ∧ v ∉ url <$> col.
Proof.
  unfold main, main_body. destruct listing_urls as [|c rest]; [by intros ?%elem_of_nil|].
  rewrite freshness_filter_fst.
  destruct (List.filter (url_is_new col) (c :: rest)) as [|f fs] eqn:Hf.
  { destruct (notify_subscribers env fetch (PyList []) _) as [[notif sent]|e];
      by intros ?%elem_of_nil. }
  pose proof (process_navigates envs write (f :: fs)
                {| driver := driver0; recent_scrapped_listings_urls := ∅;
                   mongo_col := col; log := [] |} v) as Hp.
  destruct (process_urls_directly json_loads envs write (f :: fs) _)
    as [details st].
  assert (Hev : Navigate v ∈ log st → v ∈ omap truthy_url (c :: rest) ∧ v ∉ url <$> col).
  { intros H. destruct (Hp H) as [?%elem_of_nil|Hin]; [done|].
    apply list_elem_of_omap in Hin as (cand & Hcand & Ht).
    rewrite <- Hf in Hcand. apply list_elem_of_In, filter_In in Hcand as [Hc Hnew].
    split.
    - apply list_elem_of_omap. exists cand. split; [by apply list_elem_of_In | done].
    - unfold url_is_new in Hnew. rewrite Ht in Hnew.
      by apply bool_decide_eq_true in Hnew. }
  by destruct (notify_subscribers env fetch details _) as [[notif sent]|e].
Qed.

End Driver.

(** An environment in which the notifier can be built. *)
Definition configured_environ : environ :=
  {| MAILCHIMP_API_KEY := Some "0123456789abcdef-us1";
     MAILCHIMP_LIST_ID := None;
     template_id := Ret 10 |}.

Lemma nothing_new_reports_failure_witness :
  (freshness_filter [diner_record] [candidate_123]).1 = []
  ∧ main (λ _, None) (λ _, "") sample_loads (λ _ _, Some 7) (λ _ _ _, true)
      [candidate_123] [diner_record] (Some 0%nat) (λ _ _, good_attempt)
      WriteCompletes configured_environ (Members [open_subscriber])
    = {| ok := false; store := [diner_record]; events := []; campaigns := [] |}.
Proof.
  split; [reflexivity|].
  exact (nothing_new_reports_failure (λ _, None) (λ _, "") sample_loads
           (λ _ _, Some 7) (λ _ _ _, true) [candidate_123] [diner_record]
           (Some 0%nat) (λ _ _, good_attempt) WriteCompletes configured_environ
           (Members [open_subscriber]) eq_refl).
Defined.

Lemma empty_pool_reports_failure_witness :
  (process_urls_directly sample_loads (λ _ _, blocked_attempt (Created (Some 1%nat)))
     WriteCompletes (freshness_filter [] [candidate_123]).1
     {| driver := Some 0%nat; recent_scrapped_listings_urls := ∅; mongo_col := [];
        log := [] |}).1 = PyInt 0
  ∧ open_subscriber ∈ [blank_subscriber; open_subscriber]
  ∧ skipped open_subscriber = false
  ∧ ok (main (λ _, None) (λ _, "") sample_loads (λ _ _, Some 7) (λ _ _ _, true)
          [candidate_123] [] (Some 0%nat)
          (λ _ _, blocked_attempt (Created (Some 1%nat))) WriteCompletes
          configured_environ (Members [blank_subscriber; open_subscriber])) = false
  ∧ campaigns (main (λ _, None) (λ _, "") sample_loads (λ _ _, Some 7) (λ _ _ _, true)
                 [candidate_123] [] (Some 0%nat)
                 (λ _ _, blocked_attempt (Created (Some 1%nat))) WriteCompletes
                 configured_environ (Members [blank_subscriber; open_subscriber]))
    = [].
Proof.
  assert (Hp : (process_urls_directly sample_loads
                  (λ _ _, blocked_attempt (Created (Some 1%nat))) WriteCompletes
                  (freshness_filter [] [candidate_123]).1
                  {| driver := Some 0%nat; recent_scrapped_listings_urls := ∅;
                     mongo_col := []; log := [] |}).1 = PyInt 0).
  { vm_compute. reflexivity. }
  assert (Hin : open_subscriber ∈ [blank_subscriber; open_subscriber]).
  { apply list_elem_of_further, list_elem_of_here. }
  split; [exact Hp|]. split; [exact Hin|]. split; [reflexivity|].
  exact (empty_pool_reports_failure (λ _, None) (λ _, "") sample_loads
           (λ _ _, Some 7) (λ _ _ _, true) [candidate_123] [] (Some 0%nat)
           (λ _ _, blocked_attempt (Created (Some 1%nat))) WriteCompletes
           configured_environ [blank_subscriber; open_subscriber] open_subscriber
           Hp Hin eq_refl).
Defined.

Lemma main_loads_only_new_urls_witness :
  Navigate "https://www.bizbuysell.com/new/456/"
  ∈ events (main (λ _, None) (λ _, "") sample_loads (λ _ _, Some 7) (λ _ _ _, true)
              [candidate_123; candidate_456] [diner_record] (Some 0%nat)
              (λ _ _, good_attempt) WriteCompletes configured_environ
              (Members [open_subscriber]))
  ∧ "https://www.bizbuysell.com/new/456/"
    ∈ omap truthy_url [candidate_123; candidate_456]
  ∧ "https://www.bizbuysell.com/new/456/" ∉ url <$> [diner_record].
Proof.
  assert (H : Navigate "https://www.bizbuysell.com/new/456/"
              ∈ events (main (λ _, None) (λ _, "") sample_loads (λ _ _, Some 7)
                          (λ _ _ _, true) [candidate_123; candidate_456]
                          [diner_record] (Some 0%nat) (λ _ _, good_attempt)
                          WriteCompletes configured_environ
                          (Members [open_subscriber]))).
  { vm_compute. apply list_elem_of_here. }
  split; [exact H|].
  exact (main_loads_only_new_urls (λ _, None) (λ _, "") sample_loads (λ _ _, Some 7)
           (λ _ _ _, true) [candidate_123; candidate_456] [diner_record] (Some 0%nat)
           (λ _ _, good_attempt) WriteCompletes configured_environ
           (Members [open_subscriber]) _ H).
Defined.

(** A run that finds one new listing: it is scraped, stored and announced,
    and [main] returns [True]. *)
Example main_of_one_new_listing :
  main (λ _, None) (λ _, "") sample_loads (λ _ _, Some 7) (λ _ _ _, true)
    [candidate_123] [] (Some 0%nat) (λ _ _, good_attempt) WriteCompletes
    configured_environ (Members [open_subscriber])
  = {| ok := true; store := [diner_record];
       events := [Navigate "https://www.bizbuysell.com/new/123/"; BulkWrite 1];
       campaigns := [{| segment_id := 7; recipients := ["open@example.com"];
                        content := [diner_record] |}] |}.
Proof. vm_compute. reflexivity. Qed.

(** A write that raises after the store has applied the one operation of
    the batch: the count is zero, yet the record is in the collection. *)
Example raising_write_can_store :
  _save_details_to_mongo (WriteRaises [true]) [diner_record] live_scraper
  = (0%nat,
     {| driver := Some 0%nat; recent_scrapped_listings_urls := ∅;
        mongo_col := [diner_record]; log := [BulkWrite 1] |}).
Proof. vm_compute. reflexivity. Qed.
